(** * MojoCode task form and database scripts: a shallow embedding

    The development follows the three programs of the repository:
    - [components/task-form]: the catalog of agents and models, the
      required-key helper, the React state of [TaskForm] with its three
      effects, and [handleSubmit];
    - [scripts/migrate.ts]: [runMigrations] and its entry point;
    - the reset script: [resetDatabase] and its entry point.

    JavaScript strings are modelled by [string]; a character stands for one
    code unit in the range U+0000..U+00FF.  The log lines of the scripts are
    kept as they are written, in UTF-8. *)

From Stdlib Require Import ZArith Bool Ascii String.
From stdpp Require Import base option list gmap strings.

Open Scope string_scope.
Open Scope list_scope.

(** ** String primitives of the host language *)

Module Js.

(** [s.startsWith(p)]. *)
Fixpoint startsWith (p s : string) : bool :=
  match p, s with
  | EmptyString, _ => true
  | String _ _, EmptyString => false
  | String a p', String b s' => if Ascii.eqb a b then startsWith p' s' else false
  end.

(** [s.includes(sub)]: [sub] occurs at some position of [s]. *)
Fixpoint includes (s sub : string) : bool :=
  startsWith sub s ||
  match s with
  | EmptyString => false
  | String _ s' => includes s' sub
  end.

(** The code units that [String.prototype.trim] strips (WhiteSpace and
    LineTerminator of ECMAScript) among the code units a [string] holds:
    TAB, LF, VT, FF, CR, SPACE and NO-BREAK SPACE. *)
Definition isWhiteSpace (c : ascii) : bool :=
  let n := nat_of_ascii c in
  (9 <=? n)%nat && (n <=? 13)%nat || (n =? 32)%nat || (n =? 160)%nat.

Fixpoint trimStart (s : string) : string :=
  match s with
  | EmptyString => EmptyString
  | String c s' => if isWhiteSpace c then trimStart s' else s
  end.

Fixpoint trimEnd (s : string) : string :=
  match s with
  | EmptyString => EmptyString
  | String c s' =>
      match trimEnd s' with
      | EmptyString => if isWhiteSpace c then EmptyString else String c EmptyString
      | t => String c t
      end
  end.

(** [s.trim()]. *)
Definition trim (s : string) : string := trimEnd (trimStart s).

(** Truthiness of a string: only the empty string is falsy. *)
Definition truthy (s : string) : bool :=
  match s with EmptyString => false | String _ _ => true end.

(** Every code unit of [s] is white space. *)
Fixpoint blank (s : string) : bool :=
  match s with
  | EmptyString => true
  | String c s' => isWhiteSpace c && blank s'
  end.

(** [sub] is a contiguous part of [s]. *)
Definition Substring (sub s : string) : Prop :=
  exists l r, s = l +:+ sub +:+ r.

End Js.

(** ** The agent catalog *)

Record Option_ := { value : string; label : string }.

Definition CODING_AGENTS : list Option_ :=
  [ {| value := "codex"; label := "Codex" |};
    {| value := "claude"; label := "Claude" |};
    {| value := "opencode"; label := "Opencode" |} ].

(** Model options for each agent. *)
Definition AGENT_MODELS : gmap string (list Option_) :=
  {[ "codex" := [ {| value := "gpt-5.1-codex"; label := "GPT-5.1-Codex" |} ];
     "claude" := [ {| value := "claude-sonnet-4-5-20250929"; label := "Sonnet 4.5" |} ];
     "opencode" := [ {| value := "gemini-3-pro-preview"; label := "Gemini 3 Pro" |} ] ]}.

(** Default models for each agent. *)
Definition DEFAULT_MODELS : gmap string string :=
  {[ "codex" := "gpt-5.1-codex";
     "claude" := "claude-sonnet-4-5-20250929";
     "opencode" := "gemini-3-pro-preview" ]}.

Inductive Provider := openai | gemini | cursor | anthropic | aigateway.

(** API key requirements for each agent; the entry of [opencode] is empty
    and is determined from the selected model by [getOpenCodeRequiredKeys]. *)
Definition AGENT_API_KEY_REQUIREMENTS : gmap string (list Provider) :=
  {[ "claude" := [anthropic];
     "codex" := [aigateway];
     "opencode" := [] ]}.

(** Which API key is needed for opencode, based on the model. *)
Definition getOpenCodeRequiredKeys (model : string) : list Provider :=
  if Js.includes model "gemini" then [gemini]
  else if Js.includes model "claude" || Js.includes model "sonnet" || Js.includes model "opus"
       then [anthropic]
  else if Js.includes model "gpt" then [aigateway]
  else [aigateway; anthropic].

(** ** Data of the task form *)

Record GitHubRepo := {
  name : string;
  full_name : string;
  description : string;
  private : bool;
  clone_url : string;
  language : string
}.

(** The object handed to [onSubmit]. *)
Module Payload.
Record t := {
  prompt : string;
  repoUrl : string;
  selectedAgent : string;
  selectedModel : string;
  installDependencies : bool;
  maxDuration : Z;
  keepAlive : bool
}.
End Payload.

(** What the component reads from its parent. *)
Module Props.
Record t := {
  selectedOwner : string;
  selectedRepo : string;
  initialInstallDependencies : bool;
  initialMaxDuration : Z;
  initialKeepAlive : bool
}.
End Props.

(** The jotai atoms the component subscribes to.  A [null] atom value is an
    absent key (or [None]); the two atom families are maps from their
    parameter. *)
Module Atoms.
Record t := {
  taskPrompt : string;
  lastSelectedAgent : option string;
  lastSelectedModel : gmap string string;
  githubRepos : gmap string (list GitHubRepo)
}.
End Atoms.

(** The search parameters of the page URL. *)
Module Url.
Record t := { agent : option string; model : option string }.
End Url.

(** Everything a render of [TaskForm] closes over: the two props that
    change, the atoms, and the [useState] cells. *)
Record TaskForm := {
  selectedOwner : string;
  selectedRepo : string;
  prompt : string;
  savedAgent : option string;
  savedModels : gmap string string;
  githubRepos : gmap string (list GitHubRepo);
  selectedAgent : string;
  selectedModel : string;
  loadingRepos : bool;
  installDependencies : bool;
  maxDuration : Z;
  keepAlive : bool
}.

(** The writes a handler or an effect can make: [useState] setters, atom
    setters, and the parent changing a prop.  [SetSavedModel] and [SetRepos]
    carry the parameter of the atom the setter was bound to at render. *)
Inductive Update :=
  | SetSelectedAgent (v : string)
  | SetSelectedModel (v : string)
  | SetSavedAgent (v : string)
  | SetSavedModel (agent v : string)
  | SetRepos (owner : string) (v : option (list GitHubRepo))
  | SetLoadingRepos (v : bool)
  | SetPrompt (v : string)
  | SetInstallDependenciesState (v : bool)
  | SetMaxDurationState (v : Z)
  | SetKeepAliveState (v : bool)
  | SetOwnerProp (v : string)
  | SetRepoProp (v : string).

Definition applyUpdate (u : Update) (s : TaskForm) : TaskForm :=
  let '{| selectedOwner := o; selectedRepo := r; prompt := p; savedAgent := sa;
          savedModels := sm; githubRepos := g; selectedAgent := a;
          selectedModel := m; loadingRepos := l; installDependencies := i;
          maxDuration := d; keepAlive := k |} := s in
  match u with
  | SetSelectedAgent v => Build_TaskForm o r p sa sm g v m l i d k
  | SetSelectedModel v => Build_TaskForm o r p sa sm g a v l i d k
  | SetSavedAgent v => Build_TaskForm o r p (Some v) sm g a m l i d k
  | SetSavedModel agent v => Build_TaskForm o r p sa (<[agent := v]> sm) g a m l i d k
  | SetRepos owner (Some v) => Build_TaskForm o r p sa sm (<[owner := v]> g) a m l i d k
  | SetRepos owner None => Build_TaskForm o r p sa sm (delete owner g) a m l i d k
  | SetLoadingRepos v => Build_TaskForm o r p sa sm g a m v i d k
  | SetPrompt v => Build_TaskForm o r v sa sm g a m l i d k
  | SetInstallDependenciesState v => Build_TaskForm o r p sa sm g a m l v d k
  | SetMaxDurationState v => Build_TaskForm o r p sa sm g a m l i v k
  | SetKeepAliveState v => Build_TaskForm o r p sa sm g a m l i d v
  | SetOwnerProp v => Build_TaskForm v r p sa sm g a m l i d k
  | SetRepoProp v => Build_TaskForm o v p sa sm g a m l i d k
  end.

(** The preference cookies of [lib/utils/cookies]. *)
Inductive Cookie :=
  | InstallDependenciesCookie (v : bool)
  | MaxDurationCookie (v : Z)
  | KeepAliveCookie (v : bool).

(** What a handler or an effect does, in program order. *)
Inductive Action :=
  | Set_ (u : Update)
  | PreventDefault
  | FocusPrompt
  | Fetch (url : string)
  | ToastError (title description : string)
  | ConsoleError (message : string)
  | SetCookie (c : Cookie)
  | OnSubmit (data : Payload.t).

(** An asynchronous function with at most a chain of awaited requests: the
    continuation of [Await] receives what the request settles to. *)
Inductive Task (R : Type) : Type :=
  | Return
  | Perform (a : Action) (k : Task R)
  | Await (url : string) (k : R -> Task R).
Arguments Return {R}.
Arguments Perform {R} a k.
Arguments Await {R} url k.

(** Running a task against a network that answers [net url]. *)
Fixpoint run {R} (net : string -> R) (t : Task R) : list Action :=
  match t with
  | Return => []
  | Perform a k => a :: run net k
  | Await url k => Fetch url :: run net (k (net url))
  end.

(** The state after the writes of a trace, applied in order (React applies
    the batched setters of one handler or effect pass in call order). *)
Definition commit (acts : list Action) (s : TaskForm) : TaskForm :=
  foldl (fun s a => match a with Set_ u => applyUpdate u s | _ => s end) s acts.

Definition requests (acts : list Action) : list string :=
  omap (fun a => match a with Fetch url => Some url | _ => None end) acts.

Definition submissions (acts : list Action) : list Payload.t :=
  omap (fun a => match a with OnSubmit d => Some d | _ => None end) acts.

Definition toasts (acts : list Action) : list (string * string) :=
  omap (fun a => match a with ToastError t d => Some (t, d) | _ => None end) acts.

Definition errorLogs (acts : list Action) : list string :=
  omap (fun a => match a with ConsoleError m => Some m | _ => None end) acts.

(** ** [handleSubmit] *)

(** What [fetch] followed by [response.json()] settles to for the key
    check: either a step of the [try] block throws, or the body is the
    object [{ hasKey, provider, agentName }]. *)
Inductive KeyCheck :=
  | KeyCheckThrows
  | KeyCheckJson (hasKey : bool) (provider agentName : string).

Definition providerNames : gmap string string :=
  {[ "anthropic" := "Anthropic";
     "openai" := "OpenAI";
     "cursor" := "Cursor";
     "gemini" := "Gemini";
     "aigateway" := "AI Gateway" ]}.

(** [providerNames[provider] || provider]; every entry of the table is a
    non-empty string. *)
Definition providerName (provider : string) : string :=
  default provider (providerNames !! provider).

Definition keyCheckUrl (s : TaskForm) : string :=
  "/api/api-keys/check?agent=" +:+ selectedAgent s +:+ "&model=" +:+ selectedModel s.

(** [repos?.find((repo) => repo.name === selectedRepo)], where [repos] is
    the atom of the selected owner. *)
Definition selectedRepoData (s : TaskForm) : option GitHubRepo :=
  githubRepos s !! selectedOwner s ≫= List.find (fun repo => String.eqb (name repo) (selectedRepo s)).

Definition payload (s : TaskForm) (url : string) : Payload.t :=
  {| Payload.prompt := Js.trim (prompt s);
     Payload.repoUrl := url;
     Payload.selectedAgent := selectedAgent s;
     Payload.selectedModel := selectedModel s;
     Payload.installDependencies := installDependencies s;
     Payload.maxDuration := maxDuration s;
     Payload.keepAlive := keepAlive s |}.

Definition handleSubmit (s : TaskForm) : Task KeyCheck :=
  Perform PreventDefault
  (if negb (Js.truthy (Js.trim (prompt s))) then Return
   else if negb (Js.truthy (selectedOwner s)) || negb (Js.truthy (selectedRepo s))
   then Perform (OnSubmit (payload s "")) Return
   else
     let submit :=
       Perform (OnSubmit (payload s (from_option clone_url "" (selectedRepoData s)))) Return in
     match selectedRepoData s with
     | Some _ =>
         Await (keyCheckUrl s) (fun response =>
           match response with
           | KeyCheckJson false provider agentName =>
               Perform (ToastError
                 (providerName provider +:+ " API key required")
                 ("Please add your " +:+ providerName provider +:+
                  " API key in the user menu to use the " +:+ agentName +:+
                  " agent with this model."))
               Return
           | KeyCheckJson true _ _ => submit
           | KeyCheckThrows => Perform (ConsoleError "Error checking API key:") submit
           end)
     | None => submit
     end).

(** ** State and effects of [TaskForm] *)

Definition defaultAgent : string := "codex".

(** [CODING_AGENTS.some((agent) => agent.value === a && !isDivider)]; no
    entry of the catalog has the [isDivider] property. *)
Definition isAgent (a : string) : bool :=
  existsb (fun agent => String.eqb (value agent) a) CODING_AGENTS.

(** [AGENT_MODELS[agent]?.some((model) => model.value === m)]. *)
Definition hasModel (agent m : string) : bool :=
  from_option (existsb (fun model => String.eqb (value model) m)) false
              (AGENT_MODELS !! agent).

(** The first render: the initial values of the [useState] cells. *)
Definition initialState (props : Props.t) (atoms : Atoms.t) : TaskForm :=
  {| selectedOwner := Props.selectedOwner props;
     selectedRepo := Props.selectedRepo props;
     prompt := Atoms.taskPrompt atoms;
     savedAgent := Atoms.lastSelectedAgent atoms;
     savedModels := Atoms.lastSelectedModel atoms;
     githubRepos := Atoms.githubRepos atoms;
     selectedAgent :=
       match Atoms.lastSelectedAgent atoms with
       | Some a => if Js.truthy a && isAgent a then a else defaultAgent
       | None => defaultAgent
       end;
     selectedModel := default "" (DEFAULT_MODELS !! defaultAgent);
     loadingRepos := false;
     installDependencies := Props.initialInstallDependencies props;
     maxDuration := Props.initialMaxDuration props;
     keepAlive := Props.initialKeepAlive props |}.

(** The mount effect (empty dependency list): URL parameters first, then
    the saved agent; it ends by focusing the prompt. *)
Definition mountEffect (url : Url.t) (s : TaskForm) : list Action :=
  let fromSaved :=
    match savedAgent s with
    | Some a => if Js.truthy a && isAgent a then [Set_ (SetSelectedAgent a)] else []
    | None => []
    end in
  match Url.agent url with
  | Some a =>
      if Js.truthy a && isAgent a then
        Set_ (SetSelectedAgent a) ::
        match Url.model url with
        | Some m => if Js.truthy m && hasModel a m then [Set_ (SetSelectedModel m)] else []
        | None => []
        end
      else fromSaved
  | None => fromSaved
  end ++ [FocusPrompt].

(** The model effect, with dependencies [selectedAgent] and [savedModel],
    the latter being the atom of the family at [selectedAgent]. *)
Definition modelEffect (s : TaskForm) : list Action :=
  let a := selectedAgent s in
  let useDefault :=
    match DEFAULT_MODELS !! a with
    | Some d => if Js.truthy d then [Set_ (SetSelectedModel d)] else []
    | None => []
    end in
  if Js.truthy a then
    match savedModels s !! a with
    | Some m => if Js.truthy m && hasModel a m then [Set_ (SetSelectedModel m)] else useDefault
    | None => useDefault
    end
  else [].

Definition modelEffectDeps (s : TaskForm) : string * option string :=
  (selectedAgent s, savedModels s !! selectedAgent s).

(** What [fetch] followed by [response.json()] settles to for the repository
    list. *)
Inductive ReposResponse :=
  | ReposFetchThrows
  | ReposNotOk
  | ReposJsonThrows
  | ReposJson (reposList : list GitHubRepo).

Definition reposUrl (owner : string) : string := "/api/github/repos?owner=" +:+ owner.

(** [fetchRepos] of the repository effect; the [finally] block also runs
    after the early [return] of the cache hit. *)
Definition fetchRepos (s : TaskForm) : Task ReposResponse :=
  let owner := selectedOwner s in
  let finally := Perform (Set_ (SetLoadingRepos false)) Return in
  Perform (Set_ (SetLoadingRepos true))
  (if from_option (fun repos => (0 <? length repos)%nat) false (githubRepos s !! owner)
   then Perform (Set_ (SetLoadingRepos false)) finally
   else
     Await (reposUrl owner) (fun response =>
       match response with
       | ReposJson reposList => Perform (Set_ (SetRepos owner (Some reposList))) finally
       | ReposNotOk => finally
       | ReposFetchThrows | ReposJsonThrows =>
           Perform (ConsoleError "Error fetching repositories:") finally
       end)).

(** The repository effect, with dependencies [selectedOwner], [repos] (the
    atom of the family at [selectedOwner]) and its setter. *)
Definition repoEffect (s : TaskForm) : Task ReposResponse :=
  if negb (Js.truthy (selectedOwner s))
  then Perform (Set_ (SetRepos (selectedOwner s) None)) Return
  else fetchRepos s.

#[global] Instance GitHubRepo_eq_dec : EqDecision GitHubRepo.
Proof. solve_decision. Defined.

Definition repoEffectDeps (s : TaskForm) : string * option (list GitHubRepo) :=
  (selectedOwner s, githubRepos s !! selectedOwner s).

(** After a render, an effect runs again only when one of its dependencies
    differs from the previous render.  React compares dependencies with
    [Object.is]; the comparison here is equality of values, which agrees
    with it for strings and, for the repository list, whenever the atom was
    not written between the two renders.  The model effect is synchronous;
    the repository effect reads and writes [githubRepos] and [loadingRepos]
    only, which the model effect does not read, and is followed on its own. *)
Definition rerunModelEffect (prev cur : TaskForm) : list Action :=
  if decide (modelEffectDeps prev = modelEffectDeps cur) then [] else modelEffect cur.

Definition rerunRepoEffect (prev cur : TaskForm) : Task ReposResponse :=
  if decide (repoEffectDeps prev = repoEffectDeps cur) then Return else repoEffect cur.

(** Mounting: the mount effect and the model effect run against the first
    render, their writes are applied in call order, and the model effect
    runs again if the writes changed its dependencies.  The repository
    effect of the same pass is [repoEffect], followed in [reachable]. *)
Definition mount (props : Props.t) (atoms : Atoms.t) (url : Url.t) : TaskForm :=
  let s0 := initialState props atoms in
  let s1 := commit (mountEffect url s0 ++ modelEffect s0) s0 in
  commit (rerunModelEffect s0 s1) s1.

(** What the user and the parent can do to a mounted form. *)
Inductive Event :=
  | SelectAgent (v : string)
  | SelectModel (v : string)
  | TypePrompt (v : string)
  | UpdateInstallDependencies (v : bool)
  | UpdateMaxDuration (v : Z)
  | UpdateKeepAlive (v : bool)
  | ChangeOwner (v : string)
  | ChangeRepo (v : string).

Definition handle (e : Event) (s : TaskForm) : list Action :=
  match e with
  | SelectAgent v => [Set_ (SetSelectedAgent v); Set_ (SetSavedAgent v)]
  | SelectModel v => [Set_ (SetSelectedModel v); Set_ (SetSavedModel (selectedAgent s) v)]
  | TypePrompt v => [Set_ (SetPrompt v)]
  | UpdateInstallDependencies v =>
      [Set_ (SetInstallDependenciesState v); SetCookie (InstallDependenciesCookie v)]
  | UpdateMaxDuration v => [Set_ (SetMaxDurationState v); SetCookie (MaxDurationCookie v)]
  | UpdateKeepAlive v => [Set_ (SetKeepAliveState v); SetCookie (KeepAliveCookie v)]
  | ChangeOwner v => [Set_ (SetOwnerProp v)]
  | ChangeRepo v => [Set_ (SetRepoProp v)]
  end.

(** The two menus offer one entry per element of [CODING_AGENTS] and one per
    element of [AGENT_MODELS[selectedAgent]]. *)
Definition offered (e : Event) (s : TaskForm) : bool :=
  match e with
  | SelectAgent v => isAgent v
  | SelectModel v => hasModel (selectedAgent s) v
  | _ => true
  end.

(** One event: the handler's writes, then the render they cause. *)
Definition step (e : Event) (s : TaskForm) : TaskForm :=
  let s1 := commit (handle e s) s in
  commit (rerunModelEffect s s1) s1.

(** The states of a form between events. *)
Inductive reachable : TaskForm -> Prop :=
  | reach_mount props atoms url : reachable (mount props atoms url)
  | reach_event e s : reachable s -> offered e s = true -> reachable (step e s)
  | reach_repos net s : reachable s -> reachable (commit (run net (repoEffect s)) s)
  | reach_submit net s : reachable s -> reachable (commit (run net (handleSubmit s)) s).

(** The resolution rules in the words of the specification. *)
Definition spec_resolveAgent (urlAgent savedAgent : option string) : string :=
  match urlAgent with
  | Some a => if isAgent a then a else
      match savedAgent with
      | Some b => if isAgent b then b else "codex"
      | None => "codex"
      end
  | None =>
      match savedAgent with
      | Some b => if isAgent b then b else "codex"
      | None => "codex"
      end
  end.

Definition spec_persistedOrDefault (agent : string) (savedModel : option string) : string :=
  match savedModel with
  | Some m => if hasModel agent m then m else default "" (DEFAULT_MODELS !! agent)
  | None => default "" (DEFAULT_MODELS !! agent)
  end.

Definition spec_resolveModel (agent : string) (urlModel savedModel : option string) : string :=
  match urlModel with
  | Some m => if hasModel agent m then m else spec_persistedOrDefault agent savedModel
  | None => spec_persistedOrDefault agent savedModel
  end.

(** The state between events: the agent is in the catalog and the model is
    the one the model effect would write. *)
Definition settled (s : TaskForm) : Prop :=
  isAgent (selectedAgent s) = true /\
  selectedModel s =
    spec_persistedOrDefault (selectedAgent s) (savedModels s !! selectedAgent s).


(** ** Sample inputs *)

Definition sampleRepo : GitHubRepo :=
  {| name := "coding-agent-template";
     full_name := "jakesixtyoneeighty/coding-agent-template";
     description := "Coding agent template";
     private := false;
     clone_url := "https://github.com/jakesixtyoneeighty/coding-agent-template.git";
     language := "TypeScript" |}.

(** A form with a repository selected that the cache of the owner holds. *)
Definition sampleForm : TaskForm :=
  {| selectedOwner := "jakesixtyoneeighty";
     selectedRepo := "coding-agent-template";
     prompt := "  Fix the login redirect ";
     savedAgent := Some "claude";
     savedModels := ∅;
     githubRepos := {[ "jakesixtyoneeighty" := [sampleRepo] ]};
     selectedAgent := "claude";
     selectedModel := "claude-sonnet-4-5-20250929";
     loadingRepos := false;
     installDependencies := true;
     maxDuration := 300;
     keepAlive := false |}.

(** The same form with a prompt of white space, with no owner, and with a
    repository name the cache does not hold. *)
Definition blankForm : TaskForm := applyUpdate (SetPrompt "  ") sampleForm.
Definition signedOutForm : TaskForm := applyUpdate (SetOwnerProp "") sampleForm.
Definition staleForm : TaskForm := applyUpdate (SetRepoProp "renamed-repo") sampleForm.

(** A network on which the key is missing, and one that is down. *)
Definition missingKey (url : string) : KeyCheck := KeyCheckJson false "anthropic" "Claude".
Definition offline (url : string) : KeyCheck := KeyCheckThrows.

(** A mount with claude persisted and opencode named by the URL. *)
Definition sampleProps : Props.t :=
  {| Props.selectedOwner := ""; Props.selectedRepo := "";
     Props.initialInstallDependencies := false; Props.initialMaxDuration := 300;
     Props.initialKeepAlive := false |}.

Definition sampleAtoms : Atoms.t :=
  {| Atoms.taskPrompt := ""; Atoms.lastSelectedAgent := Some "claude";
     Atoms.lastSelectedModel := {[ "claude" := "claude-3-opus" ]};
     Atoms.githubRepos := ∅ |}.

Definition sampleUrl : Url.t :=
  {| Url.agent := Some "opencode"; Url.model := Some "gemini-3-pro-preview" |}.

Definition noUrl : Url.t := {| Url.agent := None; Url.model := None |}.

(** ** The database scripts *)

Module Script.

(** The statements the scripts send. *)
Inductive Statement :=
  | DropSchema (schema : string) (ifExists cascade : bool)
  | DropTable (table : string) (ifExists cascade : bool).

(** What a script does to the outside, in program order. *)
Inductive Output :=
  | Log (line : string)                    (* console.log *)
  | LogError (line : string)               (* console.error *)
  | Connect (url : string) (max : nat)     (* postgres(url, { max }) *)
  | Migrate (migrationsFolder : string)    (* migrate(drizzle(client), { migrationsFolder }) *)
  | Query (q : Statement)                  (* sql`...` *)
  | EndClient                              (* client.end() *)
  | Exit (code : Z).                       (* process.exit *)

(** The outside of a script: the environment after [config()], the
    database (schemas, and tables as pairs of schema and name), and what
    the collaborators answer: the error the server raises for a statement
    (lost connection, missing privilege), the error [migrate] rejects
    with, and the error [end] rejects with, if any. *)
Record World := {
  env : gmap string string;
  schemas : gset string;
  tables : gset (string * string);
  fault : Statement -> option string;
  migration : option string;
  closing : option string
}.

Definition withDatabase (sch : gset string) (tbl : gset (string * string)) (w : World) : World :=
  {| env := env w; schemas := sch; tables := tbl; fault := fault w;
     migration := migration w; closing := closing w |}.

Inductive Result (A : Type) :=
  | Ok (a : A)
  | Threw (error : string).
Arguments Ok {A} a.
Arguments Threw {A} error.

(** An async function of a script: it reads and changes the world, leaves
    a trace, and resolves or rejects. *)
Definition M (A : Type) : Type := World -> list Output * World * Result A.

#[global] Instance M_ret : MRet M := fun A a w => ([], w, Ok a).

#[global] Instance M_bind : MBind M := fun A B f m w =>
  match m w with
  | (t1, w1, Ok a) => let '(t2, w2, r) := f a w1 in (t1 ++ t2, w2, r)
  | (t1, w1, Threw e) => (t1, w1, Threw e)
  end.

Definition throw {A} (e : string) : M A := fun w => ([], w, Threw e).

Definition emit (o : Output) : M unit := fun w => ([o], w, Ok tt).

(** [try { body } catch (error) { handler } finally { finalizer }]: the
    finalizer runs on every path, and its own rejection wins. *)
Definition tryCatchFinally {A} (body : M A) (handler : string -> M A) (finalizer : M unit) : M A :=
  fun w =>
    let '(t1, w1, r1) := body w in
    let '(t2, w2, r2) :=
      match r1 with
      | Ok a => ([], w1, Ok a)
      | Threw e => handler e w1
      end in
    let '(t3, w3, r3) := finalizer w2 in
    (t1 ++ t2 ++ t3, w3, match r3 with Ok _ => r2 | Threw e => Threw e end).

(** [process.env[name]]; [undefined] is [None]. *)
Definition processEnv (name : string) : M (option string) :=
  fun w => ([], w, Ok (env w !! name)).

(** Truthiness of a string or [undefined]. *)
Definition truthy (v : option string) : bool := from_option Js.truthy false v.

(** [postgres(url, { max })] creates the client. *)
Definition postgres (url : string) (max : nat) : M unit := emit (Connect url max).

(** What the server does with a statement that reaches it without a
    fault: an object that exists is dropped (a schema with the tables in
    it); one that does not exist is an error unless [IF EXISTS] was
    given.  Unqualified table names are looked up in [public]. *)
Definition execute (q : Statement) (w : World) : World + string :=
  match q with
  | DropSchema n ifExists _ =>
      if decide (n ∈ schemas w)
      then inl (withDatabase (schemas w ∖ {[n]}) (filter (fun t => t.1 ≠ n) (tables w)) w)
      else if ifExists then inl w else inr "schema does not exist"
  | DropTable n ifExists _ =>
      if decide (("public", n) ∈ tables w)
      then inl (withDatabase (schemas w) (tables w ∖ {[("public", n)]}) w)
      else if ifExists then inl w else inr "table does not exist"
  end.

(** [await sql`...`]. *)
Definition query (q : Statement) : M unit := fun w =>
  match fault w q with
  | Some e => ([Query q], w, Threw e)
  | None =>
      match execute q w with
      | inl w' => ([Query q], w', Ok tt)
      | inr e => ([Query q], w, Threw e)
      end
  end.

(** [await migrate(drizzle(client), { migrationsFolder })]. *)
Definition migrate (migrationsFolder : string) : M unit := fun w =>
  ([Migrate migrationsFolder], w,
   match migration w with Some e => Threw e | None => Ok tt end).

(** [await client.end()]. *)
Definition endClient : M unit := fun w =>
  ([EndClient], w, match closing w with Some e => Threw e | None => Ok tt end).

(** [scripts/migrate.ts]. *)
Definition runMigrations : M unit :=
  emit (Log "→ Running database migrations...");;
  POSTGRES_URL ← processEnv "POSTGRES_URL";
  if negb (truthy POSTGRES_URL)
  then throw "POSTGRES_URL environment variable is required"
  else
    postgres (default "" POSTGRES_URL) 1;;
    tryCatchFinally
      (migrate "./lib/db/migrations";;
       emit (Log "✓ Database migrations completed successfully"))
      (fun error => emit (LogError "✗ Migration failed:");; throw error)
      endClient.

(** The entry point of [scripts/migrate.ts] when run as the main module. *)
Definition migrateMain (w : World) : list Output * World :=
  match runMigrations w with
  | (t, w', Ok _) => (t ++ [Log "✓ Migration script completed"; Exit 0], w')
  | (t, w', Threw _) => (t ++ [LogError "✗ Migration script failed:"; Exit 1], w')
  end.

(** The reset script. *)
Definition resetDatabase : M unit :=
  emit (Log "→ Resetting database...");;
  POSTGRES_URL ← processEnv "POSTGRES_URL";
  if negb (truthy POSTGRES_URL)
  then throw "POSTGRES_URL environment variable is required"
  else
    postgres (default "" POSTGRES_URL) 1;;
    tryCatchFinally
      (emit (Log "  Dropping all tables...");;
       query (DropSchema "drizzle" true true);;
       query (DropTable "anonymous_chat_logs" true true);;
       query (DropTable "chat_ownerships" true true);;
       query (DropTable "accounts" true true);;
       query (DropTable "connectors" true true);;
       query (DropTable "keys" true true);;
       query (DropTable "settings" true true);;
       query (DropTable "task_messages" true true);;
       query (DropTable "tasks" true true);;
       query (DropTable "users" true true);;
       query (DropTable "__drizzle_migrations" true true);;
       emit (Log "✓ Database reset completed"))
      (fun error => emit (LogError "✗ Database reset failed:");; throw error)
      endClient.

(** The entry point of the reset script when run as the main module. *)
Definition resetMain (w : World) : list Output * World :=
  match resetDatabase w with
  | (t, w', Ok _) => (t ++ [Log "✓ Now run: pnpm db:migrate:run"; Exit 0], w')
  | (t, w', Threw _) => (t ++ [LogError "✗ Reset failed:"; Exit 1], w')
  end.

(** The statements of [resetDatabase], in program order, and the tables
    among them. *)
Definition resetStatements : list Statement :=
  [ DropSchema "drizzle" true true;
    DropTable "anonymous_chat_logs" true true;
    DropTable "chat_ownerships" true true;
    DropTable "accounts" true true;
    DropTable "connectors" true true;
    DropTable "keys" true true;
    DropTable "settings" true true;
    DropTable "task_messages" true true;
    DropTable "tasks" true true;
    DropTable "users" true true;
    DropTable "__drizzle_migrations" true true ].

Definition resetTables : list string :=
  [ "anonymous_chat_logs"; "chat_ownerships"; "accounts"; "connectors"; "keys";
    "settings"; "task_messages"; "tasks"; "users"; "__drizzle_migrations" ].

(** Statements awaited one after the other, then [k]. *)
Definition inOrder (qs : list Statement) (k : M unit) : M unit :=
  foldr (fun q k => query q;; k) k qs.

(** [resetDatabase] as a function of the statements it awaits. *)
Definition dropScript (qs : list Statement) : M unit :=
  emit (Log "→ Resetting database...");;
  POSTGRES_URL ← processEnv "POSTGRES_URL";
  if negb (truthy POSTGRES_URL)
  then throw "POSTGRES_URL environment variable is required"
  else
    postgres (default "" POSTGRES_URL) 1;;
    tryCatchFinally
      (emit (Log "  Dropping all tables...");;
       inOrder qs (emit (Log "✓ Database reset completed")))
      (fun error => emit (LogError "✗ Database reset failed:");; throw error)
      endClient.

(** The world after a statement, unchanged if the statement is an error. *)
Definition drop (w : World) (q : Statement) : World :=
  match execute q w with inl w' => w' | inr _ => w end.

(** The object a statement names exists. *)
Definition present (q : Statement) (w : World) : Prop :=
  match q with
  | DropSchema n _ _ => n ∈ schemas w
  | DropTable n _ _ => ("public", n) ∈ tables w
  end.

(** A database that holds the ten tables and the drizzle schema, one that
    holds only some of them, and a server that refuses to drop [tasks]. *)
Definition fullWorld : World :=
  {| env := {[ "POSTGRES_URL" := "postgres://localhost:5432/mojocode" ]};
     schemas := {[ "public"; "drizzle" ]};
     tables := list_to_set (("drizzle", "__drizzle_migrations") ::
                            map (fun n => ("public", n)) resetTables);
     fault := fun _ => None;
     migration := None;
     closing := None |}.

Definition sparseWorld : World :=
  withDatabase {[ "public" ]} {[ ("public", "users"); ("public", "tasks") ]} fullWorld.

Definition refusingWorld : World :=
  {| env := env fullWorld; schemas := schemas fullWorld; tables := tables fullWorld;
     fault := fun q => match q with
                       | DropTable "tasks" _ _ => Some "must be owner of table tasks"
                       | _ => None
                       end;
     migration := Some "relation already exists";
     closing := None |}.


(** The three components of a run. *)
Definition trace {A} (m : M A) (w : World) : list Output := (m w).1.1.
Definition after {A} (m : M A) (w : World) : World := (m w).1.2.
Definition outcome {A} (m : M A) (w : World) : Result A := (m w).2.

Definition ifExists (q : Statement) : bool :=
  match q with DropSchema _ b _ | DropTable _ b _ => b end.

Definition cascade (q : Statement) : bool :=
  match q with DropSchema _ _ b | DropTable _ _ b => b end.

(** Readings of a trace. *)
Definition connections (t : list Output) : list (string * nat) :=
  omap (fun o => match o with Connect url max => Some (url, max) | _ => None end) t.

Definition closes (t : list Output) : nat :=
  length (omap (fun o => match o with EndClient => Some tt | _ => None end) t).

Definition statements (t : list Output) : list Statement :=
  omap (fun o => match o with Query q => Some q | _ => None end) t.

Definition droppedTables (t : list Output) : list string :=
  omap (fun o => match o with Query (DropTable n _ _) => Some n | _ => None end) t.

Definition droppedSchemas (t : list Output) : list string :=
  omap (fun o => match o with Query (DropSchema n _ _) => Some n | _ => None end) t.

Definition exitCodes (t : list Output) : list Z :=
  omap (fun o => match o with Exit c => Some c | _ => None end) t.

Definition migrations (t : list Output) : list string :=
  omap (fun o => match o with Migrate f => Some f | _ => None end) t.

End Script.

(** ** The keyboard handler, the submit button and the option chips *)

Record KeyboardEvent := { key : string; shiftKey : bool }.

Inductive KeyAction :=
  | KeyPreventDefault
  | DispatchSubmit.

(** [handleTextareaKeyDown].  [innerWidth] is [None] where [window] is
    undefined; [form] tells whether [closest('form')] finds a form (the
    textarea of the component is rendered inside its form). *)
Definition handleTextareaKeyDown
    (innerWidth : option Z) (form : bool) (e : KeyboardEvent) (s : TaskForm) : list KeyAction :=
  if String.eqb (key e) "Enter" then
    let isMobile := from_option (fun w => (w <? 768)%Z) false innerWidth in
    if negb isMobile && negb (shiftKey e) then
      KeyPreventDefault ::
      (if Js.truthy (Js.trim (prompt s))
       then if form then [DispatchSubmit] else []
       else [])
    else []
  else [].

(** The [disabled] attribute of the submit button. *)
Definition submitDisabled (isSubmitting : bool) (s : TaskForm) : bool :=
  isSubmitting || negb (Js.truthy (Js.trim (prompt s))).

(** The three conditions under which an option chip is rendered. *)
Definition skipInstallChip (s : TaskForm) : bool := negb (installDependencies s).

Definition durationChip (maxSandboxDuration : Z) (s : TaskForm) : bool :=
  negb (maxDuration s =? maxSandboxDuration)%Z.

Definition keepAliveChip (s : TaskForm) : bool := keepAlive s.

(** The condition under which the row of chips is rendered. *)
Definition chipsVisible (maxSandboxDuration : Z) (s : TaskForm) : bool :=
  negb (installDependencies s) || negb (maxDuration s =? maxSandboxDuration)%Z || keepAlive s.

(** [customOptionsCount] of the options button: [[...].filter(Boolean).length]. *)
Definition customOptionsCount (maxSandboxDuration : Z) (s : TaskForm) : nat :=
  length (List.filter (fun b : bool => b)
            [ negb (installDependencies s);
              negb (maxDuration s =? maxSandboxDuration)%Z;
              keepAlive s ]).

(** The [onClick] of the three chips, after [stopPropagation]. *)
Definition clearSkipInstall : Event := UpdateInstallDependencies true.
Definition clearDuration (maxSandboxDuration : Z) : Event := UpdateMaxDuration maxSandboxDuration.
Definition clearKeepAlive : Event := UpdateKeepAlive false.

(** ** Runs of events *)

(** The events of a list, one after the other. *)
Definition runEvents (es : list Event) (s : TaskForm) : TaskForm :=
  foldl (fun s e => step e s) s es.

(** The values the form leaves in the atoms, which a later mount reads. *)
Definition atomsOf (s : TaskForm) : Atoms.t :=
  {| Atoms.taskPrompt := prompt s;
     Atoms.lastSelectedAgent := savedAgent s;
     Atoms.lastSelectedModel := savedModels s;
     Atoms.githubRepos := githubRepos s |}.

(** The value each cookie setter of [lib/utils/cookies] was last called
    with, [None] before its first call. *)
Record CookieJar := {
  installDependenciesCookie : option bool;
  maxDurationCookie : option Z;
  keepAliveCookie : option bool
}.

Definition emptyJar : CookieJar :=
  {| installDependenciesCookie := None; maxDurationCookie := None; keepAliveCookie := None |}.

Definition writeCookie (jar : CookieJar) (a : Action) : CookieJar :=
  match a with
  | SetCookie (InstallDependenciesCookie v) =>
      {| installDependenciesCookie := Some v;
         maxDurationCookie := maxDurationCookie jar;
         keepAliveCookie := keepAliveCookie jar |}
  | SetCookie (MaxDurationCookie v) =>
      {| installDependenciesCookie := installDependenciesCookie jar;
         maxDurationCookie := Some v;
         keepAliveCookie := keepAliveCookie jar |}
  | SetCookie (KeepAliveCookie v) =>
      {| installDependenciesCookie := installDependenciesCookie jar;
         maxDurationCookie := maxDurationCookie jar;
         keepAliveCookie := Some v |}
  | _ => jar
  end.

(** The jar after the handlers of a list of events, run from state [s]. *)
Fixpoint cookiesAfter (es : list Event) (s : TaskForm) (jar : CookieJar) : CookieJar :=
  match es with
  | [] => jar
  | e :: es' => cookiesAfter es' (step e s) (foldl writeCookie jar (handle e s))
  end.

(** The writes that touch the selection only. *)
Definition selectionWrite (a : Action) : Prop :=
  match a with
  | Set_ (SetSelectedAgent _) | Set_ (SetSelectedModel _) => True
  | Set_ _ => False
  | _ => True
  end.

(** The identifiers of the [Provider] type. *)
Definition providerId (p : Provider) : string :=
  match p with
  | openai => "openai"
  | gemini => "gemini"
  | cursor => "cursor"
  | anthropic => "anthropic"
  | aigateway => "aigateway"
  end.

(** More sample inputs: a network on which the key exists, the form before
    the list of its owner has arrived, a listing endpoint that answers and
    one that refuses, and the Enter key on a wide window. *)
Definition keyPresent (url : string) : KeyCheck := KeyCheckJson true "anthropic" "Claude".

Definition coldForm : TaskForm := applyUpdate (SetRepos "jakesixtyoneeighty" None) sampleForm.

Definition listing (url : string) : ReposResponse := ReposJson [sampleRepo].

Definition refusing (url : string) : ReposResponse := ReposNotOk.

Definition enterKey : KeyboardEvent := {| key := "Enter"; shiftKey := false |}.

Definition samplePayload : Payload.t := payload sampleForm (clone_url sampleRepo).

(** The form after a mount with the sample atoms and no URL parameter. *)
Definition mountedForm : TaskForm := mount sampleProps sampleAtoms noUrl.

(** ** Facts about the string primitives *)

Lemma startsWith_spec p s :
  Js.startsWith p s = true <-> exists r, s = p +:+ r.
Proof.
  revert s; induction p as [|a p IH]; intros s; simpl.
  - split; [intros _; by exists s | done].
  - destruct s as [|b s].
    + split; [done | intros [r Hr]; discriminate].
    + destruct (Ascii.eqb_spec a b) as [->|Hab].
      * rewrite IH. split; intros [r Hr]; exists r; [by rewrite Hr | by injection Hr].
      * split; [done | intros [r Hr]; injection Hr; congruence].
Qed.

Lemma includes_spec s sub :
  Js.includes s sub = true <-> Js.Substring sub s.
Proof.
  unfold Js.Substring. induction s as [|c s IH]; simpl.
  - rewrite orb_false_r, startsWith_spec. split.
    + intros [r Hr]. by exists "", r.
    + intros (l & r & H). destruct l; [by exists r | discriminate].
  - rewrite orb_true_iff, startsWith_spec, IH. split.
    + intros [[r Hr] | (l & r & Hr)].
      * by exists "", r.
      * exists (String c l), r. simpl. by rewrite Hr.
    + intros (l & r & H). destruct l as [|c' l]; simpl in H.
      * left. by exists r.
      * right. injection H as _ H. by exists l, r.
Qed.

Lemma includes_false s sub :
  Js.includes s sub = false <-> ~ Js.Substring sub s.
Proof. rewrite <- includes_spec. by destruct (Js.includes s sub). Qed.

(** C4: the table gives claude the anthropic key and codex the aigateway
    key; for opencode and every model string, a model containing "gemini"
    needs the gemini key; otherwise one containing "claude", "sonnet" or
    "opus" needs the anthropic key; otherwise one containing "gpt" needs
    the aigateway key; otherwise both aigateway and anthropic are needed. *)
Theorem required_key_resolution (m : string) :
  AGENT_API_KEY_REQUIREMENTS !! "claude" = Some [anthropic] /\
  AGENT_API_KEY_REQUIREMENTS !! "codex" = Some [aigateway] /\
  (Js.Substring "gemini" m -> getOpenCodeRequiredKeys m = [gemini]) /\
  (~ Js.Substring "gemini" m ->
   Js.Substring "claude" m \/ Js.Substring "sonnet" m \/ Js.Substring "opus" m ->
   getOpenCodeRequiredKeys m = [anthropic]) /\
  (~ Js.Substring "gemini" m ->
   ~ (Js.Substring "claude" m \/ Js.Substring "sonnet" m \/ Js.Substring "opus" m) ->
   Js.Substring "gpt" m ->
   getOpenCodeRequiredKeys m = [aigateway]) /\
  (~ Js.Substring "gemini" m ->
   ~ (Js.Substring "claude" m \/ Js.Substring "sonnet" m \/ Js.Substring "opus" m) ->
   ~ Js.Substring "gpt" m ->
   getOpenCodeRequiredKeys m = [aigateway; anthropic]).
Proof.
  unfold getOpenCodeRequiredKeys.
  split; [by vm_compute|]. split; [by vm_compute|].
  repeat split.
  - intros H%includes_spec. by rewrite H.
  - intros Hg%includes_false Hc. rewrite Hg.
    rewrite <- !includes_spec, <- !orb_true_iff, orb_assoc in Hc. by rewrite Hc.
  - intros Hg%includes_false Hc Hp%includes_spec. rewrite Hg, Hp.
    rewrite <- !includes_spec, <- !orb_true_iff, orb_assoc in Hc.
    by destruct (_ || _ || _).
  - intros Hg%includes_false Hc Hp%includes_false. rewrite Hg, Hp.
    rewrite <- !includes_spec, <- !orb_true_iff, orb_assoc in Hc.
    by destruct (_ || _ || _).
Qed.

Lemma trimStart_empty s : Js.trimStart s = "" <-> Js.blank s = true.
Proof.
  induction s as [|c s IH]; simpl; [done|].
  destruct (Js.isWhiteSpace c); simpl; [done | split; discriminate].
Qed.

Lemma trimEnd_empty s : Js.trimEnd s = "" <-> Js.blank s = true.
Proof.
  induction s as [|c s IH]; simpl; [done|].
  destruct (Js.trimEnd s) eqn:E.
  - destruct (Js.isWhiteSpace c); simpl.
    + split; [intros _; by apply IH | done].
    + split; discriminate.
  - split; [discriminate|]. intros [_ H%IH]%andb_true_iff. discriminate.
Qed.

Lemma blank_trimStart s : Js.blank (Js.trimStart s) = Js.blank s.
Proof.
  induction s as [|c s IH]; simpl; [done|].
  destruct (Js.isWhiteSpace c) eqn:E; simpl; [done | by rewrite E].
Qed.

(** A string trims to the empty string exactly when it is empty or holds
    white space only. *)
Lemma trim_empty s : Js.trim s = "" <-> Js.blank s = true.
Proof. unfold Js.trim. by rewrite trimEnd_empty, blank_trimStart. Qed.

Lemma truthy_true s : Js.truthy s = true <-> s <> "".
Proof. destruct s; simpl; split; congruence. Qed.

Lemma truthy_false s : Js.truthy s = false <-> s = "".
Proof. destruct s; simpl; split; congruence. Qed.

(** ** Submission *)

Lemma find_name_some (l : list GitHubRepo) (n : string) :
  (exists r, r ∈ l /\ name r = n) ->
  exists r, List.find (fun repo => String.eqb (name repo) n) l = Some r /\ r ∈ l /\ name r = n.
Proof.
  intros (r & Hin & Hn). induction l as [|x l IH]; [by apply elem_of_nil in Hin|].
  simpl. destruct (String.eqb_spec (name x) n) as [Hx|Hx].
  - exists x. split_and!; [done | apply list_elem_of_here | done].
  - apply elem_of_cons in Hin as [->|Hin]; [done|].
    destruct (IH Hin) as (r' & ? & ? & ?). exists r'. split_and!; [done | by apply list_elem_of_further | done].
Qed.

Lemma find_name_none (l : list GitHubRepo) (n : string) :
  (forall r, r ∈ l -> name r <> n) ->
  List.find (fun repo => String.eqb (name repo) n) l = None.
Proof.
  induction l as [|x l IH]; intros H; simpl; [done|].
  destruct (String.eqb_spec (name x) n) as [Hx|Hx].
  - exfalso. apply (H x); [apply list_elem_of_here | done].
  - apply IH. intros r Hr. apply H. by apply list_elem_of_further.
Qed.


(** C2: whatever the other fields hold, a submit whose prompt is empty or
    white space only hands nothing to [onSubmit], issues no request, shows
    no toast, logs no error and leaves the form as it was. *)
Theorem blank_prompt_is_rejected_silently (s : TaskForm) (net : string -> KeyCheck) :
  Js.blank (prompt s) = true ->
  run net (handleSubmit s) = [PreventDefault] /\
  submissions (run net (handleSubmit s)) = [] /\
  requests (run net (handleSubmit s)) = [] /\
  toasts (run net (handleSubmit s)) = [] /\
  errorLogs (run net (handleSubmit s)) = [] /\
  commit (run net (handleSubmit s)) s = s.
Proof.
  intros H%trim_empty. unfold handleSubmit. rewrite H. simpl. by repeat split.
Qed.


(** C10: with a prompt that survives trimming and an owner and a repo
    selected, when the cached list of the owner is null, empty or holds no
    repo of the selected name, the submit issues no request and hands
    [onSubmit] one payload with the empty [repoUrl] and the other fields as
    selected. *)
Theorem unmatched_repo_skips_key_check (s : TaskForm) (net : string -> KeyCheck) :
  Js.trim (prompt s) <> "" ->
  selectedOwner s <> "" ->
  selectedRepo s <> "" ->
  (forall repos r, githubRepos s !! selectedOwner s = Some repos ->
                   r ∈ repos -> name r <> selectedRepo s) ->
  run net (handleSubmit s) = [PreventDefault; OnSubmit (payload s "")] /\
  requests (run net (handleSubmit s)) = [] /\
  submissions (run net (handleSubmit s)) =
    [ {| Payload.prompt := Js.trim (prompt s);
         Payload.repoUrl := "";
         Payload.selectedAgent := selectedAgent s;
         Payload.selectedModel := selectedModel s;
         Payload.installDependencies := installDependencies s;
         Payload.maxDuration := maxDuration s;
         Payload.keepAlive := keepAlive s |} ].
Proof.
  intros Hp%truthy_true Ho%truthy_true Hr%truthy_true Hno.
  assert (Hd : selectedRepoData s = None).
  { unfold selectedRepoData. destruct (githubRepos s !! selectedOwner s) as [l|] eqn:El; [|done].
    simpl. apply find_name_none. intros r. by apply Hno. }
  unfold handleSubmit. rewrite Hp, Ho, Hr, Hd. simpl. by repeat split.
Qed.

(** ** The catalog, case by case *)

Lemma AGENT_MODELS_codex :
  AGENT_MODELS !! "codex" = Some [ {| value := "gpt-5.1-codex"; label := "GPT-5.1-Codex" |} ].
Proof. by vm_compute. Qed.

Lemma AGENT_MODELS_claude :
  AGENT_MODELS !! "claude" =
  Some [ {| value := "claude-sonnet-4-5-20250929"; label := "Sonnet 4.5" |} ].
Proof. by vm_compute. Qed.

Lemma AGENT_MODELS_opencode :
  AGENT_MODELS !! "opencode" =
  Some [ {| value := "gemini-3-pro-preview"; label := "Gemini 3 Pro" |} ].
Proof. by vm_compute. Qed.

Lemma isAgent_cases a :
  isAgent a = true <-> a = "codex" \/ a = "claude" \/ a = "opencode".
Proof.
  unfold isAgent, CODING_AGENTS. cbn [existsb value].
  rewrite !orb_true_iff, !String.eqb_eq. intuition congruence.
Qed.

Lemma isAgent_truthy a : isAgent a = true -> Js.truthy a = true.
Proof. intros [-> | [-> | ->]]%isAgent_cases; done. Qed.

Lemma truthy_isAgent a : Js.truthy a && isAgent a = isAgent a.
Proof.
  destruct (isAgent a) eqn:E; [|apply andb_false_r].
  by rewrite (isAgent_truthy a E).
Qed.

Lemma hasModel_cases a m :
  hasModel a m = true <->
  (a = "codex" /\ m = "gpt-5.1-codex") \/
  (a = "claude" /\ m = "claude-sonnet-4-5-20250929") \/
  (a = "opencode" /\ m = "gemini-3-pro-preview").
Proof.
  unfold hasModel.
  destruct (decide (a = "codex")) as [->|H1];
    [rewrite AGENT_MODELS_codex|
     destruct (decide (a = "claude")) as [->|H2];
       [rewrite AGENT_MODELS_claude|
        destruct (decide (a = "opencode")) as [->|H3];
          [rewrite AGENT_MODELS_opencode|]]].
  1-3: cbn [from_option existsb value]; rewrite orb_false_r, String.eqb_eq; intuition congruence.
  unfold AGENT_MODELS. rewrite !lookup_insert_ne, lookup_singleton_ne by done.
  cbn [from_option]. split; [discriminate | intros [[? _]|[[? _]|[? _]]]; congruence].
Qed.

Lemma hasModel_truthy a m : hasModel a m = true -> Js.truthy m = true.
Proof. intros [[? ->] | [[? ->] | [? ->]]]%hasModel_cases; done. Qed.

Lemma hasModel_isAgent a m : hasModel a m = true -> isAgent a = true.
Proof. intros [[-> ?] | [[-> ?] | [-> ?]]]%hasModel_cases; done. Qed.

(** Every agent has a default model, and it is one of its models. *)
Lemma default_model_valid a :
  isAgent a = true ->
  exists d, DEFAULT_MODELS !! a = Some d /\ Js.truthy d = true /\ hasModel a d = true.
Proof.
  intros [-> | [-> | ->]]%isAgent_cases; eexists; (split; [by vm_compute|]); by vm_compute.
Qed.

(** Every agent has exactly one model, its default. *)
Lemma only_model_is_default a m :
  hasModel a m = true -> DEFAULT_MODELS !! a = Some m.
Proof. intros [[-> ->] | [[-> ->] | [-> ->]]]%hasModel_cases; by vm_compute. Qed.

Lemma persistedOrDefault_valid a saved :
  isAgent a = true -> hasModel a (spec_persistedOrDefault a saved) = true.
Proof.
  intros (d & Hd & _ & Hv)%default_model_valid. unfold spec_persistedOrDefault.
  rewrite Hd. simpl. destruct saved as [m|]; [|done]. by destruct (hasModel a m) eqn:E.
Qed.

#[local] Arguments isAgent : simpl never.
#[local] Arguments hasModel : simpl never.

(** ** The model effect *)

Lemma commit_app acts1 acts2 s :
  commit (acts1 ++ acts2) s = commit acts2 (commit acts1 s).
Proof. unfold commit. apply foldl_app. Qed.

(** For a catalog agent the model effect makes exactly one write: the saved
    model of the agent if the agent has it, else the default of the agent. *)
Lemma modelEffect_agent s :
  isAgent (selectedAgent s) = true ->
  modelEffect s =
    [Set_ (SetSelectedModel
             (spec_persistedOrDefault (selectedAgent s) (savedModels s !! selectedAgent s)))].
Proof.
  intros Ha. destruct (default_model_valid _ Ha) as (d & Hd & Ht & _).
  unfold modelEffect, spec_persistedOrDefault. rewrite (isAgent_truthy _ Ha), Hd, Ht. simpl.
  destruct (savedModels s !! selectedAgent s) as [m|]; [|done].
  destruct (hasModel (selectedAgent s) m) eqn:E; [|by rewrite andb_false_r].
  by rewrite (hasModel_truthy _ _ E).
Qed.

Lemma rerunModelEffect_settles prev cur :
  isAgent (selectedAgent cur) = true ->
  (modelEffectDeps prev = modelEffectDeps cur ->
   selectedModel cur =
     spec_persistedOrDefault (selectedAgent cur) (savedModels cur !! selectedAgent cur)) ->
  let next := commit (rerunModelEffect prev cur) cur in
  settled next /\
  selectedAgent next = selectedAgent cur /\
  savedModels next = savedModels cur /\
  modelEffectDeps next = modelEffectDeps cur.
Proof.
  intros Ha Hm. unfold rerunModelEffect, settled.
  destruct (decide (modelEffectDeps prev = modelEffectDeps cur)) as [Heq|Hne].
  - cbn. by rewrite <- Hm.
  - rewrite (modelEffect_agent cur Ha). destruct cur; cbn in *. done.
Qed.

Lemma initialState_agent props atoms :
  selectedAgent (initialState props atoms) =
  spec_resolveAgent None (Atoms.lastSelectedAgent atoms).
Proof.
  cbn. destruct (Atoms.lastSelectedAgent atoms) as [a|]; [|done]. by rewrite truthy_isAgent.
Qed.

Lemma spec_resolveAgent_isAgent urlAgent saved :
  isAgent (spec_resolveAgent urlAgent saved) = true.
Proof.
  unfold spec_resolveAgent.
  destruct urlAgent as [a|]; [destruct (isAgent a) eqn:Ea; [done|]|];
    (destruct saved as [b|]; [destruct (isAgent b) eqn:Eb|]; done).
Qed.

(** The writes of the mount effect: the agent of the URL if the catalog
    has it, else the saved agent if the catalog has it; the saved models are
    not written. *)
Lemma commit_mountEffect url s :
  let s' := commit (mountEffect url s) s in
  savedModels s' = savedModels s /\
  selectedAgent s' =
    let fromSaved :=
      match savedAgent s with
      | Some b => if isAgent b then b else selectedAgent s
      | None => selectedAgent s
      end in
    match Url.agent url with
    | Some a => if isAgent a then a else fromSaved
    | None => fromSaved
    end.
Proof.
  unfold mountEffect. rewrite commit_app.
  destruct s as [o r p sa sm g a m l i d k]; cbn.
  destruct (Url.agent url) as [ua|]; [rewrite truthy_isAgent; destruct (isAgent ua) eqn:Eua|].
  - destruct (Url.model url) as [um|]; [destruct (Js.truthy um && hasModel ua um)|]; by cbn.
  - destruct sa as [b|]; [rewrite truthy_isAgent; destruct (isAgent b)|]; by cbn.
  - destruct sa as [b|]; [rewrite truthy_isAgent; destruct (isAgent b)|]; by cbn.
Qed.

Lemma applyUpdate_SetSelectedModel v s :
  selectedAgent (applyUpdate (SetSelectedModel v) s) = selectedAgent s /\
  savedModels (applyUpdate (SetSelectedModel v) s) = savedModels s /\
  selectedModel (applyUpdate (SetSelectedModel v) s) = v.
Proof. by destruct s. Qed.

(** The state the writes of the mount pass leave before the next render:
    the agent is resolved, the model is the one the model effect computed
    for the agent of the first render. *)
Lemma mount_pass_agent props atoms url :
  let s0 := initialState props atoms in
  let s1 := commit (mountEffect url s0 ++ modelEffect s0) s0 in
  selectedAgent s1 = spec_resolveAgent (Url.agent url) (Atoms.lastSelectedAgent atoms) /\
  savedModels s1 = Atoms.lastSelectedModel atoms /\
  selectedModel s1 =
    spec_persistedOrDefault (selectedAgent s0) (Atoms.lastSelectedModel atoms !! selectedAgent s0).
Proof.
  intros s0 s1. subst s1. rewrite commit_app.
  assert (Ha0 : isAgent (selectedAgent s0) = true).
  { subst s0. rewrite initialState_agent. apply spec_resolveAgent_isAgent. }
  rewrite (modelEffect_agent s0 Ha0).
  destruct (commit_mountEffect url s0) as [Hsm Hag].
  change (commit [Set_ (SetSelectedModel ?v)] ?s) with (applyUpdate (SetSelectedModel v) s).
  destruct (applyUpdate_SetSelectedModel
              (spec_persistedOrDefault (selectedAgent s0) (savedModels s0 !! selectedAgent s0))
              (commit (mountEffect url s0) s0)) as (-> & -> & ->).
  rewrite Hsm, Hag. split_and!; try done.
  subst s0. rewrite initialState_agent. unfold spec_resolveAgent. cbn [initialState savedAgent].
  destruct (Url.agent url) as [ua|]; [destruct (isAgent ua)|];
    (destruct (Atoms.lastSelectedAgent atoms) as [b|]; [destruct (isAgent b) eqn:Eb|]; try done).
  all: by rewrite Eb.
Qed.

Lemma mount_settled props atoms url :
  settled (mount props atoms url) /\
  selectedAgent (mount props atoms url) =
    spec_resolveAgent (Url.agent url) (Atoms.lastSelectedAgent atoms) /\
  savedModels (mount props atoms url) = Atoms.lastSelectedModel atoms.
Proof.
  unfold mount.
  destruct (mount_pass_agent props atoms url) as (Ha & Hsm & Hm).
  set (s0 := initialState props atoms) in *.
  set (s1 := commit (mountEffect url s0 ++ modelEffect s0) s0) in *.
  destruct (rerunModelEffect_settles s0 s1) as (Hset & Hag & Hsv & _).
  - rewrite Ha. apply spec_resolveAgent_isAgent.
  - intros Hd. pose proof (f_equal fst Hd) as E1. pose proof (f_equal snd Hd) as E2.
    unfold modelEffectDeps in E1, E2. cbn [fst snd] in E1, E2.
    rewrite Hm. change (Atoms.lastSelectedModel atoms) with (savedModels s0).
    by rewrite E2, E1.
  - split_and!; [done | by rewrite Hag | by rewrite Hsv].
Qed.

Lemma step_settled e s :
  settled s -> offered e s = true -> settled (step e s).
Proof.
  intros [Ha Hm] Hoff. unfold step.
  set (s1 := commit (handle e s) s).
  refine (proj1 (rerunModelEffect_settles s s1 _ _)); subst s1;
    destruct s as [o r p sa sm g a m l i d k]; destruct e; cbn in *; try done.
  - intros [= <- _]. done.
  - intros _. rewrite lookup_insert_eq. unfold spec_persistedOrDefault. by rewrite Hoff.
Qed.

Lemma commit_repoEffect_model net s :
  let s' := commit (run net (repoEffect s)) s in
  selectedAgent s' = selectedAgent s /\ selectedModel s' = selectedModel s /\
  savedModels s' = savedModels s.
Proof.
  unfold repoEffect, fetchRepos.
  destruct s as [o r p sa sm g a m l i d k]; cbn.
  destruct (Js.truthy o); cbn; [|done].
  destruct (from_option _ _ _); cbn; [done|].
  by destruct (net (reposUrl o)).
Qed.

(** A submit writes nothing to the form. *)
Lemma commit_handleSubmit net s : commit (run net (handleSubmit s)) s = s.
Proof.
  unfold handleSubmit. cbn.
  destruct (negb (Js.truthy (Js.trim (prompt s)))); [done|].
  destruct (_ || _); [done|].
  destruct (selectedRepoData s); cbn; [|done].
  by destruct (net (keyCheckUrl s)) as [|[] ? ?].
Qed.

Lemma reachable_settled s : reachable s -> settled s.
Proof.
  induction 1 as [props atoms url | e s _ IH Hoff | net s _ IH | net s _ IH].
  - apply mount_settled.
  - by apply step_settled.
  - destruct (commit_repoEffect_model net s) as (Ha & Hm & Hs).
    destruct IH as [IHa IHm]. split; [by rewrite Ha | by rewrite Hm, Ha, Hs].
  - by rewrite commit_handleSubmit.
Qed.

(** The model a mounted form shows does not depend on the URL model: the
    write of the mount effect is followed, in the same pass, by the write of
    the model effect. *)
Lemma mount_model props atoms url :
  let s := mount props atoms url in
  selectedModel s =
    spec_persistedOrDefault (selectedAgent s) (Atoms.lastSelectedModel atoms !! selectedAgent s).
Proof.
  destruct (mount_settled props atoms url) as ([_ Hm] & _ & Hsm). cbn zeta.
  by rewrite Hm, Hsm.
Qed.

Lemma persistedOrDefault_default a saved d :
  DEFAULT_MODELS !! a = Some d -> spec_persistedOrDefault a saved = d.
Proof.
  intros Hd. unfold spec_persistedOrDefault. rewrite Hd. cbn.
  destruct saved as [m|]; [|done]. destruct (hasModel a m) eqn:E; [|done].
  apply only_model_is_default in E. congruence.
Qed.

Lemma spec_resolveModel_persistedOrDefault a urlModel saved :
  isAgent a = true ->
  spec_resolveModel a urlModel saved = spec_persistedOrDefault a saved.
Proof.
  intros (d & Hd & _)%default_model_valid. unfold spec_resolveModel.
  destruct urlModel as [m|]; [|done]. destruct (hasModel a m) eqn:E; [|done].
  apply only_model_is_default in E. rewrite (persistedOrDefault_default a saved d Hd). congruence.
Qed.

Lemma step_SelectAgent s v :
  settled s -> isAgent v = true ->
  selectedAgent (step (SelectAgent v) s) = v /\
  savedAgent (step (SelectAgent v) s) = Some v /\
  selectedModel (step (SelectAgent v) s) = spec_persistedOrDefault v (savedModels s !! v).
Proof.
  intros Hs Hv. pose proof (step_settled (SelectAgent v) s Hs Hv) as [_ Hm].
  revert Hm. unfold step, rerunModelEffect.
  destruct s as [o r p sa sm g a m l i d k]; cbn.
  destruct (decide _); [by cbn|].
  rewrite modelEffect_agent by done. by cbn.
Qed.

(** C5: a mounted form has the agent of the URL if the catalog has it, else
    the persisted agent if the catalog has it, else codex; its model is the
    URL model if the agent has it, else the persisted model of the agent if
    the agent has it, else the default of the agent; and choosing an agent
    in a form between events sets the model to the persisted model of that
    agent if the agent has it, else its default. *)
Theorem agent_and_model_resolution
    (props : Props.t) (atoms : Atoms.t) (url : Url.t) (s : TaskForm) (v : string) :
  reachable s ->
  isAgent v = true ->
  selectedAgent (mount props atoms url) =
    spec_resolveAgent (Url.agent url) (Atoms.lastSelectedAgent atoms) /\
  selectedModel (mount props atoms url) =
    spec_resolveModel (selectedAgent (mount props atoms url)) (Url.model url)
      (Atoms.lastSelectedModel atoms !! selectedAgent (mount props atoms url)) /\
  selectedAgent (step (SelectAgent v) s) = v /\
  selectedModel (step (SelectAgent v) s) = spec_persistedOrDefault v (savedModels s !! v).
Proof.
  intros Hs%reachable_settled Hv.
  destruct (mount_settled props atoms url) as ([Ha _] & Hag & _).
  destruct (step_SelectAgent s v Hs Hv) as (? & _ & ?).
  split_and!; try done.
  rewrite spec_resolveModel_persistedOrDefault by done. apply mount_model.
Qed.


Lemma step_SelectModel s v :
  hasModel (selectedAgent s) v = true ->
  step (SelectModel v) s =
  applyUpdate (SetSavedModel (selectedAgent s) v) (applyUpdate (SetSelectedModel v) s).
Proof.
  intros Hv. unfold step, rerunModelEffect.
  destruct s as [o r p sa sm g a m l i d k]; cbn in *.
  destruct (decide _); [by cbn|].
  rewrite modelEffect_agent by (cbn; by eapply hasModel_isAgent).
  cbn. rewrite lookup_insert_eq. unfold spec_persistedOrDefault. by rewrite Hv.
Qed.

Lemma step_SelectAgent_fields s v :
  isAgent v = true ->
  exists m,
    step (SelectAgent v) s =
    applyUpdate (SetSelectedModel m)
      (applyUpdate (SetSavedAgent v) (applyUpdate (SetSelectedAgent v) s)).
Proof.
  intros Hv. unfold step, rerunModelEffect.
  destruct s as [o r p sa sm g a m l i d k]; cbn.
  destruct (decide _); [by exists m|].
  rewrite modelEffect_agent by done. by eexists.
Qed.

(** C3: for an agent of the catalog and one of its models, choosing the
    agent, then the model, then submitting a prompt that survives trimming
    while the owner or the repo is not selected issues no request and hands
    [onSubmit] exactly one payload: the trimmed prompt, the empty [repoUrl],
    the chosen agent and model, and the run options of the form. *)
Theorem submit_without_repo
    (s : TaskForm) (A M : string) (net : string -> KeyCheck) :
  isAgent A = true ->
  hasModel A M = true ->
  Js.trim (prompt s) <> "" ->
  selectedOwner s = "" \/ selectedRepo s = "" ->
  let s' := step (SelectModel M) (step (SelectAgent A) s) in
  requests (run net (handleSubmit s')) = [] /\
  submissions (run net (handleSubmit s')) =
    [ {| Payload.prompt := Js.trim (prompt s);
         Payload.repoUrl := "";
         Payload.selectedAgent := A;
         Payload.selectedModel := M;
         Payload.installDependencies := installDependencies s;
         Payload.maxDuration := maxDuration s;
         Payload.keepAlive := keepAlive s |} ] /\
  toasts (run net (handleSubmit s')) = [].
Proof.
  intros HA HM Hp%truthy_true Hsel.
  destruct (step_SelectAgent_fields s A HA) as [m Hstep].
  cbn zeta. rewrite Hstep.
  rewrite step_SelectModel by (by destruct s).
  assert (Hor : negb (Js.truthy (selectedOwner s)) || negb (Js.truthy (selectedRepo s)) = true).
  { destruct Hsel as [-> | ->]; [done | apply orb_true_r]. }
  destruct s as [o r p sa sm g a m0 l i d k]; cbn in *.
  unfold handleSubmit, payload. cbn. rewrite Hp, Hor. by cbn.
Qed.

(** ** The repository effect *)



(** ** The scripts *)

Section ScriptFacts.
Import Script.

Lemma closes_app t1 t2 : closes (t1 ++ t2) = (closes t1 + closes t2)%nat.
Proof. unfold closes. by rewrite omap_app, length_app. Qed.

Lemma connections_app t1 t2 : connections (t1 ++ t2) = connections t1 ++ connections t2.
Proof. apply omap_app. Qed.

Lemma statements_app t1 t2 : statements (t1 ++ t2) = statements t1 ++ statements t2.
Proof. apply omap_app. Qed.

(** The shape of both scripts: the guard on the environment, one client,
    the guarded body, and [end] on every path. *)
Lemma guarded_run (greeting failure : string) (body : M unit) (w : World) :
  (emit (Log greeting);;
   POSTGRES_URL ← processEnv "POSTGRES_URL";
   if negb (truthy POSTGRES_URL)
   then throw "POSTGRES_URL environment variable is required"
   else
     postgres (default "" POSTGRES_URL) 1;;
     tryCatchFinally body
       (fun error => emit (LogError failure);; throw error) endClient) w =
  match env w !! "POSTGRES_URL" with
  | Some (String c url) =>
      let '(t, w', r) := body w in
      ([Log greeting; Connect (String c url) 1] ++ t ++
       match r with Ok _ => [] | Threw _ => [LogError failure] end ++ [EndClient],
       w',
       match closing w' with Some e => Threw e | None => r end)
  | _ => ([Log greeting], w, Threw "POSTGRES_URL environment variable is required")
  end.
Proof.
  unfold mbind, M_bind, emit, processEnv, postgres, tryCatchFinally, endClient, throw, truthy.
  destruct (env w !! "POSTGRES_URL") as [[|c url]|]; cbn; try done.
  destruct (body w) as [[t w'] [[]|e]]; cbn; by destruct (closing w').
Qed.

Lemma runMigrations_run (w : World) :
  runMigrations w =
  match env w !! "POSTGRES_URL" with
  | Some (String c url) =>
      ([Log "→ Running database migrations..."; Connect (String c url) 1;
        Migrate "./lib/db/migrations";
        match migration w with
        | None => Log "✓ Database migrations completed successfully"
        | Some _ => LogError "✗ Migration failed:"
        end;
        EndClient],
       w,
       match closing w, migration w with
       | Some e, _ => Threw e
       | None, Some e => Threw e
       | None, None => Ok tt
       end)
  | _ => ([Log "→ Running database migrations..."], w,
          Threw "POSTGRES_URL environment variable is required")
  end.
Proof.
  unfold runMigrations. rewrite guarded_run.
  destruct (env w !! "POSTGRES_URL") as [[|c url]|]; try done.
  unfold mbind, M_bind, migrate, emit. by destruct (migration w), (closing w).
Qed.

End ScriptFacts.

(** C8: without a non-empty [POSTGRES_URL] the runner rejects with the
    message naming the variable, having created no client and called no
    migrator, and the entry point exits with 1.  With one, it creates
    exactly one client, of at most one connection, calls the migrator once
    on the migrations folder, and calls [end] exactly once, as its last act,
    whether the migrator resolved or rejected; the entry point exits with 0
    when both the migrator and [end] resolved and with 1 otherwise. *)
Theorem migration_runner (w : Script.World) :
  let t := Script.trace Script.runMigrations w in
  let r := Script.outcome Script.runMigrations w in
  let main := (Script.migrateMain w).1 in
  (Script.truthy (Script.env w !! "POSTGRES_URL") = false ->
     r = Script.Threw "POSTGRES_URL environment variable is required" /\
     Script.connections t = [] /\ Script.migrations t = [] /\
     Script.connections main = [] /\ Script.exitCodes main = [1%Z]) /\
  (forall url, Script.env w !! "POSTGRES_URL" = Some url -> url <> "" ->
     Script.connections t = [(url, 1%nat)] /\
     Script.migrations t = ["./lib/db/migrations"] /\
     Script.closes t = 1%nat /\
     last t = Some Script.EndClient /\
     Script.connections main = [(url, 1%nat)] /\
     Script.closes main = 1%nat /\
     (Script.migration w = None -> Script.closing w = None ->
        r = Script.Ok tt /\ Script.exitCodes main = [0%Z]) /\
     (Script.migration w <> None \/ Script.closing w <> None ->
        (exists e, r = Script.Threw e) /\ Script.exitCodes main = [1%Z])).
Proof.
  unfold Script.trace, Script.outcome, Script.migrateMain. rewrite runMigrations_run.
  cbn zeta. split.
  - unfold Script.truthy. intros Hf.
    destruct (Script.env w !! "POSTGRES_URL") as [[|c url]|]; try done.
  - intros url Hurl Hne. rewrite Hurl. destruct url as [|c url]; [done|]. cbn.
    destruct (Script.migration w) as [e1|], (Script.closing w) as [e2|]; cbn;
      split_and!; try done; try (intros [H|H]; done); intros _; split; eauto.
Qed.

Section ResetFacts.
Import Script.

Lemma resetDatabase_dropScript : resetDatabase = dropScript resetStatements.
Proof. reflexivity. Qed.

Lemma execute_ifExists q w : ifExists q = true -> execute q w = inl (drop w q).
Proof.
  unfold drop. destruct q as [n b c|n b c]; cbn; intros ->;
    by destruct (decide _).
Qed.

Lemma drop_oracles q w :
  fault (drop w q) = fault w /\ closing (drop w q) = closing w /\ env (drop w q) = env w.
Proof.
  unfold drop. destruct q as [n b c|n b c]; cbn;
    destruct (decide _); cbn; try done; by destruct b.
Qed.

Lemma query_ok q w :
  fault w q = None -> ifExists q = true -> query q w = ([Query q], drop w q, Ok tt).
Proof. intros Hf Hq. unfold query. by rewrite Hf, execute_ifExists. Qed.

Lemma query_shape q w : exists w' r, query q w = ([Query q], w', r).
Proof.
  unfold query. destruct (fault w q); [by eexists _, _|].
  destruct (execute q w); by eexists _, _.
Qed.

Lemma inOrder_cons q qs k w :
  inOrder (q :: qs) k w =
  match query q w with
  | (t1, w1, Ok _) => let '(t2, w2, r) := inOrder qs k w1 in (t1 ++ t2, w2, r)
  | (t1, w1, Threw e) => (t1, w1, Threw e)
  end.
Proof. reflexivity. Qed.

(** Whatever the server answers, awaiting statements in order creates no
    client, closes none, and sends a prefix of the statements. *)
Lemma inOrder_shape qs line w :
  let t := trace (inOrder qs (emit (Log line))) w in
  connections t = [] /\ closes t = 0%nat /\ (statements t) `prefix_of` qs.
Proof.
  revert w. induction qs as [|q qs IH]; intros w; cbn zeta.
  - by cbn.
  - unfold trace in *. rewrite inOrder_cons.
    destruct (query_shape q w) as (w' & r & ->).
    destruct r as [[]|e].
    + specialize (IH w').
      destruct (inOrder qs (emit (Log line)) w') as [[t2 w2] r2]. cbn in *.
      destruct IH as (? & ? & ?). split_and!; [done | done | by apply prefix_cons].
    + cbn. split_and!; [done | done |]. apply prefix_cons, prefix_nil.
Qed.

(** With no fault, every statement that carries [IF EXISTS] succeeds, on
    any database. *)
Lemma inOrder_ok qs line w :
  (forall q, fault w q = None) ->
  Forall (fun q => ifExists q = true) qs ->
  inOrder qs (emit (Log line)) w = (map Query qs ++ [Log line], foldl drop w qs, Ok tt).
Proof.
  intros Hf Hq. revert w Hf. induction Hq as [|q qs Hq _ IH]; intros w Hf; [done|].
  rewrite inOrder_cons, query_ok by done. rewrite IH; [done|].
  intros q'. destruct (drop_oracles q w) as (-> & _). apply Hf.
Qed.

Lemma foldl_drop_oracles qs w :
  closing (foldl drop w qs) = closing w /\ env (foldl drop w qs) = env w.
Proof.
  revert w. induction qs as [|q qs IH]; intros w; [done|]. cbn.
  destruct (IH (drop w q)) as [-> ->]. by destruct (drop_oracles q w) as (_ & -> & ->).
Qed.

Lemma drop_absent q w : ifExists q = true -> ~ present q (drop w q).
Proof.
  unfold drop, present. destruct q as [n b c|n b c]; cbn; intros ->;
    destruct (decide _); cbn; try done;
    rewrite elem_of_difference, elem_of_singleton; tauto.
Qed.

Lemma drop_keeps_absent q q' w : ~ present q' w -> ~ present q' (drop w q).
Proof.
  unfold drop, present. intros Habsent.
  destruct q as [n b c|n b c], q' as [n' b' c'|n' b' c']; cbn in *;
    destruct (decide _); cbn; try (by destruct b);
    rewrite ?elem_of_difference, ?elem_of_filter; tauto.
Qed.

Lemma foldl_drop_keeps_absent qs q' w : ~ present q' w -> ~ present q' (foldl drop w qs).
Proof.
  revert w. induction qs as [|q qs IH]; intros w H; [done|]. cbn.
  by apply IH, drop_keeps_absent.
Qed.

(** After the statements, none of the objects they name exists. *)
Lemma foldl_drop_absent qs q w :
  Forall (fun q => ifExists q = true) qs -> q ∈ qs -> ~ present q (foldl drop w qs).
Proof.
  intros Hq. revert w. induction Hq as [|q0 qs Hq0 _ IH]; intros w Hin.
  - by apply elem_of_nil in Hin.
  - cbn. apply elem_of_cons in Hin as [->|Hin]; [|by apply IH].
    by apply foldl_drop_keeps_absent, drop_absent.
Qed.

Lemma statements_queries qs : statements (map Query qs) = qs.
Proof. unfold statements. induction qs as [|q qs IH]; [done|]. cbn. by rewrite IH. Qed.

(** The run of the reset script over any list of statements. *)
Lemma dropScript_run qs w url :
  env w !! "POSTGRES_URL" = Some url -> url <> "" ->
  exists tb wb rb,
    inOrder qs (emit (Log "✓ Database reset completed")) w = (tb, wb, rb) /\
    dropScript qs w =
      ([Log "→ Resetting database..."; Connect url 1; Log "  Dropping all tables..."] ++ tb ++
       match rb with Ok _ => [] | Threw _ => [LogError "✗ Database reset failed:"] end ++
       [EndClient],
       wb,
       match closing wb with Some e => Threw e | None => rb end).
Proof.
  intros Hurl Hne. unfold dropScript. rewrite guarded_run, Hurl.
  destruct url as [|c url]; [done|].
  unfold mbind at 1, M_bind at 1.
  change (emit (Log "  Dropping all tables...") w)
    with ([Log "  Dropping all tables..."], w, @Ok unit tt).
  cbn beta iota zeta.
  destruct (inOrder _ _ w) as [[tb wb] rb]. exists tb, wb, rb. split; reflexivity.
Qed.

Lemma dropScript_always qs w url :
  env w !! "POSTGRES_URL" = Some url -> url <> "" ->
  let t := trace (dropScript qs) w in
  connections t = [(url, 1%nat)] /\ closes t = 1%nat /\ last t = Some EndClient /\
  (statements t) `prefix_of` qs.
Proof.
  intros Hurl Hne.
  destruct (dropScript_run qs w url Hurl Hne) as (tb & wb & rb & Hb & Hrun).
  unfold trace. rewrite Hrun. cbn zeta. cbn [fst].
  pose proof (inOrder_shape qs "✓ Database reset completed" w) as Hshape.
  unfold trace in Hshape. rewrite Hb in Hshape. cbn zeta in Hshape. cbn [fst] in Hshape.
  destruct Hshape as (Hc & He & Hp). clear Hrun Hb.
  repeat match goal with |- _ /\ _ => split end.
  - rewrite !connections_app, Hc. by destruct rb.
  - rewrite !closes_app, He. by destruct rb.
  - rewrite !app_assoc. apply last_snoc.
  - rewrite !statements_app. cbn [statements omap]. rewrite app_nil_l.
    replace (statements match rb with
                        | Ok _ => []
                        | Threw _ => [LogError "✗ Database reset failed:"]
                        end) with (@nil Statement) by (by destruct rb).
    by rewrite !app_nil_r.
Qed.

Lemma dropScript_ok qs w url :
  env w !! "POSTGRES_URL" = Some url -> url <> "" ->
  (forall q, fault w q = None) ->
  Forall (fun q => ifExists q = true) qs ->
  trace (dropScript qs) w =
    [Log "→ Resetting database..."; Connect url 1; Log "  Dropping all tables..."] ++
    map Query qs ++ [Log "✓ Database reset completed"; EndClient] /\
  outcome (dropScript qs) w = match closing w with Some e => Threw e | None => Ok tt end /\
  (forall n b c, DropSchema n b c ∈ qs -> n ∉ schemas (after (dropScript qs) w)) /\
  (forall n b c, DropTable n b c ∈ qs -> ("public", n) ∉ tables (after (dropScript qs) w)).
Proof.
  intros Hurl Hne Hf Hall.
  destruct (dropScript_run qs w url Hurl Hne) as (tb & wb & rb & Hb & Hrun).
  rewrite (inOrder_ok qs _ w Hf Hall) in Hb.
  pose proof (f_equal (fun x => x.1.1) Hb) as Ht.
  pose proof (f_equal (fun x => x.1.2) Hb) as Hw.
  pose proof (f_equal (fun x => x.2) Hb) as Hr.
  cbn beta in Ht, Hw, Hr. cbn [fst snd] in Ht, Hw, Hr. clear Hb. subst tb wb rb.
  unfold trace, after, outcome. rewrite Hrun. cbn [fst snd]. clear Hrun.
  destruct (foldl_drop_oracles qs w) as [-> _].
  repeat match goal with |- _ /\ _ => split end.
  - by rewrite <- !app_assoc.
  - reflexivity.
  - intros n b c Hin. exact (foldl_drop_absent qs (DropSchema n b c) w Hall Hin).
  - intros n b c Hin. exact (foldl_drop_absent qs (DropTable n b c) w Hall Hin).
Qed.

End ResetFacts.

(** C9, as the code has it: given a non-empty [POSTGRES_URL], the reset
    tool creates exactly one client, of at most one connection, and calls
    [end] exactly once, as its last act, whatever the server answers; the
    statements it sends are, in order, a prefix of eleven drops, all with
    [IF EXISTS] and [CASCADE]: the drizzle schema and ten tables.  When the
    server raises no fault it sends all eleven and resolves (unless [end]
    rejects) on any database, whichever of the objects exist, and afterwards
    the drizzle schema and the ten tables do not exist. *)
Theorem reset_tool (w : Script.World) (url : string) :
  Script.env w !! "POSTGRES_URL" = Some url -> url <> "" ->
  let t := Script.trace Script.resetDatabase w in
  let w' := Script.after Script.resetDatabase w in
  Script.connections t = [(url, 1%nat)] /\
  Script.closes t = 1%nat /\
  last t = Some Script.EndClient /\
  (Script.statements t) `prefix_of` Script.resetStatements /\
  Forall (fun q => Script.ifExists q = true /\ Script.cascade q = true) Script.resetStatements /\
  Script.droppedSchemas (map Script.Query Script.resetStatements) = ["drizzle"] /\
  Script.droppedTables (map Script.Query Script.resetStatements) = Script.resetTables /\
  length Script.resetTables = 10%nat /\
  ((forall q, Script.fault w q = None) ->
     Script.statements t = Script.resetStatements /\
     Script.outcome Script.resetDatabase w =
       match Script.closing w with Some e => Script.Threw e | None => Script.Ok tt end /\
     ("drizzle" ∉ Script.schemas w') /\
     forall n, n ∈ Script.resetTables -> ("public", n) ∉ Script.tables w').
Proof.
  intros Hurl Hne. rewrite resetDatabase_dropScript. cbn zeta.
  assert (Hall : Forall (fun q => Script.ifExists q = true) Script.resetStatements)
    by (repeat constructor).
  destruct (dropScript_always Script.resetStatements w url Hurl Hne) as (Hc & He & Hl & Hp).
  repeat match goal with |- _ /\ _ => split end; try assumption.
  - repeat constructor.
  - reflexivity.
  - reflexivity.
  - reflexivity.
  - intros Hf.
    destruct (dropScript_ok Script.resetStatements w url Hurl Hne Hf Hall) as (Ht & Hr & Hs & Htb).
    repeat match goal with |- _ /\ _ => split end.
    + rewrite Ht, !statements_app, statements_queries. reflexivity.
    + exact Hr.
    + apply (Hs "drizzle" true true), list_elem_of_here.
    + intros n Hn. apply (Htb n true true), list_elem_of_further.
      change (Script.DropTable n true true ∈
              (fun n => Script.DropTable n true true) <$> Script.resetTables).
      apply (list_elem_of_fmap_2 (fun n => Script.DropTable n true true)), Hn.
Qed.

(** ** The theorems at sample inputs *)

Example required_keys_samples :
  getOpenCodeRequiredKeys "gemini-3-pro-preview" = [gemini] /\
  getOpenCodeRequiredKeys "claude-sonnet-4-5-20250929" = [anthropic] /\
  getOpenCodeRequiredKeys "gpt-5.1-codex" = [aigateway] /\
  getOpenCodeRequiredKeys "gpt-opus-gemini" = [gemini] /\
  getOpenCodeRequiredKeys "llama-3" = [aigateway; anthropic].
Proof. by vm_compute. Qed.

Example provider_names :
  providerName "anthropic" = "Anthropic" /\ providerName "openai" = "OpenAI" /\
  providerName "cursor" = "Cursor" /\ providerName "gemini" = "Gemini" /\
  providerName "aigateway" = "AI Gateway" /\ providerName "mistral" = "mistral".
Proof. by vm_compute. Qed.

Example submit_with_missing_key :
  run missingKey (handleSubmit sampleForm) =
  [ PreventDefault;
    Fetch "/api/api-keys/check?agent=claude&model=claude-sonnet-4-5-20250929";
    ToastError "Anthropic API key required"
      "Please add your Anthropic API key in the user menu to use the Claude agent with this model." ].
Proof. by vm_compute. Qed.

Example submit_while_offline :
  submissions (run offline (handleSubmit sampleForm)) =
  [ {| Payload.prompt := "Fix the login redirect";
       Payload.repoUrl := "https://github.com/jakesixtyoneeighty/coding-agent-template.git";
       Payload.selectedAgent := "claude";
       Payload.selectedModel := "claude-sonnet-4-5-20250929";
       Payload.installDependencies := true;
       Payload.maxDuration := 300;
       Payload.keepAlive := false |} ].
Proof. by vm_compute. Qed.

Example mount_sample :
  selectedAgent (mount sampleProps sampleAtoms sampleUrl) = "opencode" /\
  selectedModel (mount sampleProps sampleAtoms sampleUrl) = "gemini-3-pro-preview" /\
  selectedAgent (mount sampleProps sampleAtoms noUrl) = "claude" /\
  selectedModel (mount sampleProps sampleAtoms noUrl) = "claude-sonnet-4-5-20250929".
Proof. by vm_compute. Qed.

(** The first render, before its effects have run, pairs the persisted
    agent with the default model of codex. *)
Example first_render_sample :
  selectedAgent (initialState sampleProps sampleAtoms) = "claude" /\
  selectedModel (initialState sampleProps sampleAtoms) = "gpt-5.1-codex".
Proof. by vm_compute. Qed.


Lemma blank_prompt_is_rejected_silently_witness :
  Js.blank (prompt blankForm) = true /\
  run missingKey (handleSubmit blankForm) = [PreventDefault] /\
  submissions (run missingKey (handleSubmit blankForm)) = [] /\
  requests (run missingKey (handleSubmit blankForm)) = [] /\
  toasts (run missingKey (handleSubmit blankForm)) = [] /\
  errorLogs (run missingKey (handleSubmit blankForm)) = [] /\
  commit (run missingKey (handleSubmit blankForm)) blankForm = blankForm.
Proof.
  split; [reflexivity|].
  apply (blank_prompt_is_rejected_silently blankForm missingKey). reflexivity.
Defined.

Lemma submit_without_repo_witness :
  let s' := step (SelectModel "gemini-3-pro-preview") (step (SelectAgent "opencode") signedOutForm) in
  requests (run missingKey (handleSubmit s')) = [] /\
  submissions (run missingKey (handleSubmit s')) =
    [ {| Payload.prompt := Js.trim (prompt signedOutForm);
         Payload.repoUrl := "";
         Payload.selectedAgent := "opencode";
         Payload.selectedModel := "gemini-3-pro-preview";
         Payload.installDependencies := installDependencies signedOutForm;
         Payload.maxDuration := maxDuration signedOutForm;
         Payload.keepAlive := keepAlive signedOutForm |} ] /\
  toasts (run missingKey (handleSubmit s')) = [].
Proof.
  apply (submit_without_repo signedOutForm "opencode" "gemini-3-pro-preview" missingKey).
  - vm_compute. reflexivity.
  - vm_compute. reflexivity.
  - vm_compute. discriminate.
  - left. reflexivity.
Defined.

Lemma agent_and_model_resolution_witness :
  selectedAgent (mount sampleProps sampleAtoms sampleUrl) =
    spec_resolveAgent (Url.agent sampleUrl) (Atoms.lastSelectedAgent sampleAtoms) /\
  selectedModel (mount sampleProps sampleAtoms sampleUrl) =
    spec_resolveModel (selectedAgent (mount sampleProps sampleAtoms sampleUrl)) (Url.model sampleUrl)
      (Atoms.lastSelectedModel sampleAtoms !! selectedAgent (mount sampleProps sampleAtoms sampleUrl)) /\
  selectedAgent (step (SelectAgent "claude") (mount sampleProps sampleAtoms noUrl)) = "claude" /\
  selectedModel (step (SelectAgent "claude") (mount sampleProps sampleAtoms noUrl)) =
    spec_persistedOrDefault "claude" (savedModels (mount sampleProps sampleAtoms noUrl) !! "claude").
Proof.
  apply (agent_and_model_resolution sampleProps sampleAtoms sampleUrl
           (mount sampleProps sampleAtoms noUrl) "claude").
  - apply reach_mount.
  - vm_compute. reflexivity.
Defined.


Lemma unmatched_repo_skips_key_check_witness :
  run offline (handleSubmit staleForm) = [PreventDefault; OnSubmit (payload staleForm "")] /\
  requests (run offline (handleSubmit staleForm)) = [] /\
  submissions (run offline (handleSubmit staleForm)) =
    [ {| Payload.prompt := Js.trim (prompt staleForm);
         Payload.repoUrl := "";
         Payload.selectedAgent := selectedAgent staleForm;
         Payload.selectedModel := selectedModel staleForm;
         Payload.installDependencies := installDependencies staleForm;
         Payload.maxDuration := maxDuration staleForm;
         Payload.keepAlive := keepAlive staleForm |} ].
Proof.
  apply (unmatched_repo_skips_key_check staleForm offline).
  - vm_compute. discriminate.
  - vm_compute. discriminate.
  - vm_compute. discriminate.
  - intros repos r Hl Hr.
    vm_compute in Hl. injection Hl as <-.
    apply list_elem_of_singleton in Hr. subst r. vm_compute. discriminate.
Defined.

(** The claim of C9 as it is worded fails on the code: on a database that
    holds every object the script names, the script drops ten tables, not
    eleven (its eleventh statement drops a schema). *)
Lemma reset_drops_ten_tables :
  length (Script.droppedTables (Script.trace Script.resetDatabase Script.fullWorld)) <> 11%nat.
Proof. vm_compute. discriminate. Qed.

Lemma reset_tool_witness :
  let t := Script.trace Script.resetDatabase Script.sparseWorld in
  let w' := Script.after Script.resetDatabase Script.sparseWorld in
  Script.connections t = [("postgres://localhost:5432/mojocode", 1%nat)] /\
  Script.closes t = 1%nat /\
  last t = Some Script.EndClient /\
  (Script.statements t) `prefix_of` Script.resetStatements /\
  Forall (fun q => Script.ifExists q = true /\ Script.cascade q = true) Script.resetStatements /\
  Script.droppedSchemas (map Script.Query Script.resetStatements) = ["drizzle"] /\
  Script.droppedTables (map Script.Query Script.resetStatements) = Script.resetTables /\
  length Script.resetTables = 10%nat /\
  ((forall q, Script.fault Script.sparseWorld q = None) ->
     Script.statements t = Script.resetStatements /\
     Script.outcome Script.resetDatabase Script.sparseWorld =
       match Script.closing Script.sparseWorld with
       | Some e => Script.Threw e
       | None => Script.Ok tt
       end /\
     ("drizzle" ∉ Script.schemas w') /\
     forall n, n ∈ Script.resetTables -> ("public", n) ∉ Script.tables w').
Proof.
  apply (reset_tool Script.sparseWorld "postgres://localhost:5432/mojocode").
  - vm_compute. reflexivity.
  - discriminate.
Defined.

Example reset_with_refusing_server :
  Script.trace Script.resetDatabase Script.refusingWorld =
  [ Script.Log "→ Resetting database...";
    Script.Connect "postgres://localhost:5432/mojocode" 1;
    Script.Log "  Dropping all tables...";
    Script.Query (Script.DropSchema "drizzle" true true);
    Script.Query (Script.DropTable "anonymous_chat_logs" true true);
    Script.Query (Script.DropTable "chat_ownerships" true true);
    Script.Query (Script.DropTable "accounts" true true);
    Script.Query (Script.DropTable "connectors" true true);
    Script.Query (Script.DropTable "keys" true true);
    Script.Query (Script.DropTable "settings" true true);
    Script.Query (Script.DropTable "task_messages" true true);
    Script.Query (Script.DropTable "tasks" true true);
    Script.LogError "✗ Database reset failed:";
    Script.EndClient ] /\
  Script.exitCodes (Script.resetMain Script.refusingWorld).1 = [1%Z] /\
  Script.exitCodes (Script.resetMain Script.sparseWorld).1 = [0%Z].
Proof. by vm_compute. Qed.

Example migrate_samples :
  (Script.migrateMain Script.fullWorld).1 =
  [ Script.Log "→ Running database migrations...";
    Script.Connect "postgres://localhost:5432/mojocode" 1;
    Script.Migrate "./lib/db/migrations";
    Script.Log "✓ Database migrations completed successfully";
    Script.EndClient;
    Script.Log "✓ Migration script completed";
    Script.Exit 0 ] /\
  (Script.migrateMain Script.refusingWorld).1 =
  [ Script.Log "→ Running database migrations...";
    Script.Connect "postgres://localhost:5432/mojocode" 1;
    Script.Migrate "./lib/db/migrations";
    Script.LogError "✗ Migration failed:";
    Script.EndClient;
    Script.LogError "✗ Migration script failed:";
    Script.Exit 1 ].
Proof. by vm_compute. Qed.

(** ** More on [handleSubmit] *)

(** The trace of a submit, path by path. *)
Lemma run_handleSubmit (s : TaskForm) (net : string -> KeyCheck) :
  run net (handleSubmit s) =
  if negb (Js.truthy (Js.trim (prompt s))) then [PreventDefault]
  else if negb (Js.truthy (selectedOwner s)) || negb (Js.truthy (selectedRepo s))
  then [PreventDefault; OnSubmit (payload s "")]
  else
    match selectedRepoData s with
    | None => [PreventDefault; OnSubmit (payload s "")]
    | Some repo =>
        PreventDefault :: Fetch (keyCheckUrl s) ::
        match net (keyCheckUrl s) with
        | KeyCheckJson false provider agentName =>
            [ToastError
               (providerName provider +:+ " API key required")
               ("Please add your " +:+ providerName provider +:+
                " API key in the user menu to use the " +:+ agentName +:+
                " agent with this model.")]
        | KeyCheckJson true _ _ => [OnSubmit (payload s (clone_url repo))]
        | KeyCheckThrows =>
            [ConsoleError "Error checking API key:"; OnSubmit (payload s (clone_url repo))]
        end
    end.
Proof.
  unfold handleSubmit.
  destruct (negb (Js.truthy (Js.trim (prompt s)))); [reflexivity|].
  destruct (negb (Js.truthy (selectedOwner s)) || negb (Js.truthy (selectedRepo s)));
    [reflexivity|].
  destruct (selectedRepoData s) as [repo|]; [|reflexivity].
  cbn [run from_option]. by destruct (net (keyCheckUrl s)) as [|[] ? ?].
Qed.

Lemma selectedRepoData_Some (s : TaskForm) (repo : GitHubRepo) :
  selectedRepoData s = Some repo ->
  exists repos, githubRepos s !! selectedOwner s = Some repos /\
                repo ∈ repos /\ name repo = selectedRepo s.
Proof.
  unfold selectedRepoData. destruct (githubRepos s !! selectedOwner s) as [repos|]; [|done].
  cbn. intros [Hin Hn]%List.find_some. exists repos.
  split_and!; [done | by apply list_elem_of_In | by apply String.eqb_eq].
Qed.

Lemma selectedRepoData_None (s : TaskForm) :
  selectedRepoData s = None ->
  forall repos r, githubRepos s !! selectedOwner s = Some repos -> r ∈ repos ->
                  name r <> selectedRepo s.
Proof.
  unfold selectedRepoData. intros H repos r Hl Hin Hn. rewrite Hl in H. cbn in H.
  apply list_elem_of_In in Hin.
  pose proof (List.find_none _ _ H r Hin) as Hf. cbn in Hf.
  by apply String.eqb_neq in Hf.
Qed.

(** X1: whatever the form holds and whatever the network answers, one
    submit issues at most one request, shows at most one toast and calls
    [onSubmit] at most once, and it never does both of the last two. *)
Theorem submit_acts_at_most_once (s : TaskForm) (net : string -> KeyCheck) :
  (length (requests (run net (handleSubmit s))) <= 1)%nat /\
  (length (toasts (run net (handleSubmit s))) +
   length (submissions (run net (handleSubmit s))) <= 1)%nat.
Proof.
  rewrite run_handleSubmit.
  destruct (negb _); [cbn; lia|]. destruct (_ || _); [cbn; lia|].
  destruct (selectedRepoData s); [|cbn; lia].
  destruct (net (keyCheckUrl s)) as [|[] ? ?]; cbn; lia.
Qed.

Lemma trimStart_head s c t : Js.trimStart s = String c t -> Js.isWhiteSpace c = false.
Proof.
  induction s as [|a s IH]; simpl; [done|].
  destruct (Js.isWhiteSpace a) eqn:E; [done|]. intros [= <- _]. done.
Qed.

Lemma trimEnd_head a s c t : Js.trimEnd (String a s) = String c t -> c = a.
Proof.
  simpl. destruct (Js.trimEnd s); [destruct (Js.isWhiteSpace a)|]; congruence.
Qed.

Lemma append_singleton_inv pre c a t :
  pre +:+ String c "" = String a t ->
  (pre = "" /\ c = a /\ t = "") \/ (exists pre', pre = String a pre' /\ t = pre' +:+ String c "").
Proof.
  destruct pre as [|x pre]; simpl; intros [= -> <-]; [by left | right; by eexists].
Qed.

Lemma trimEnd_last s pre c : Js.trimEnd s = pre +:+ String c "" -> Js.isWhiteSpace c = false.
Proof.
  revert pre. induction s as [|a s IH]; intros pre; simpl.
  - destruct pre; discriminate.
  - destruct (Js.trimEnd s) as [|b t] eqn:E.
    + destruct (Js.isWhiteSpace a) eqn:Ea; [destruct pre; discriminate|].
      intros H. symmetry in H. apply append_singleton_inv in H as [(_ & -> & _)|(pre' & _ & H)];
        [done | destruct pre'; discriminate].
    + intros H. symmetry in H. apply append_singleton_inv in H as [(_ & _ & [=])|(pre' & _ & H)].
      by apply (IH pre').
Qed.

(** A trimmed string neither starts nor ends with white space. *)
Lemma trim_edges s :
  (forall c t, Js.trim s = String c t -> Js.isWhiteSpace c = false) /\
  (forall pre c, Js.trim s = pre +:+ String c "" -> Js.isWhiteSpace c = false).
Proof.
  unfold Js.trim. split.
  - intros c t H. destruct (Js.trimStart s) as [|a r] eqn:E; [discriminate|].
    apply trimEnd_head in H as ->. by eapply trimStart_head.
  - intros pre c. apply trimEnd_last.
Qed.

(** X2: every payload a submit hands to [onSubmit] carries the trimmed
    prompt, which is not empty and neither starts nor ends with white space,
    and the agent, the model and the three run options the form holds. *)
Theorem submitted_payload_fields (s : TaskForm) (net : string -> KeyCheck) (d : Payload.t) :
  d ∈ submissions (run net (handleSubmit s)) ->
  Payload.prompt d = Js.trim (prompt s) /\
  Payload.prompt d <> "" /\
  (forall c t, Payload.prompt d = String c t -> Js.isWhiteSpace c = false) /\
  (forall pre c, Payload.prompt d = pre +:+ String c "" -> Js.isWhiteSpace c = false) /\
  Payload.selectedAgent d = selectedAgent s /\
  Payload.selectedModel d = selectedModel s /\
  Payload.installDependencies d = installDependencies s /\
  Payload.maxDuration d = maxDuration s /\
  Payload.keepAlive d = keepAlive s.
Proof.
  rewrite run_handleSubmit.
  destruct (Js.truthy (Js.trim (prompt s))) eqn:Hp; cbn [negb];
    [|intros H; by apply elem_of_nil in H].
  apply truthy_true in Hp. destruct (trim_edges (prompt s)) as [Hl Hr].
  assert (Hall : forall url, d = payload s url ->
    Payload.prompt d = Js.trim (prompt s) /\ Payload.prompt d <> "" /\
    (forall c t, Payload.prompt d = String c t -> Js.isWhiteSpace c = false) /\
    (forall pre c, Payload.prompt d = pre +:+ String c "" -> Js.isWhiteSpace c = false) /\
    Payload.selectedAgent d = selectedAgent s /\ Payload.selectedModel d = selectedModel s /\
    Payload.installDependencies d = installDependencies s /\
    Payload.maxDuration d = maxDuration s /\ Payload.keepAlive d = keepAlive s).
  { intros url ->. cbn. by split_and!. }
  destruct (_ || _); [cbn; intros ->%list_elem_of_singleton; by eapply Hall|].
  destruct (selectedRepoData s) as [repo|]; [|cbn; intros ->%list_elem_of_singleton; by eapply Hall].
  destruct (net (keyCheckUrl s)) as [|[] ? ?]; cbn;
    [intros ->%list_elem_of_singleton; by eapply Hall
    |intros ->%list_elem_of_singleton; by eapply Hall
    |intros H; by apply elem_of_nil in H].
Qed.

(** X3: the [repoUrl] of a submitted payload is either empty, or the clone
    URL of a repo of the selected name in the cached list of the selected
    owner; in the second case the key check was requested first. *)
Theorem submitted_repoUrl_origin (s : TaskForm) (net : string -> KeyCheck) (d : Payload.t) :
  d ∈ submissions (run net (handleSubmit s)) ->
  (Payload.repoUrl d = "" /\ requests (run net (handleSubmit s)) = []) \/
  (exists repos repo,
     githubRepos s !! selectedOwner s = Some repos /\ repo ∈ repos /\
     name repo = selectedRepo s /\ Payload.repoUrl d = clone_url repo /\
     requests (run net (handleSubmit s)) = [keyCheckUrl s]).
Proof.
  rewrite run_handleSubmit.
  destruct (negb _); [intros H; by apply elem_of_nil in H|].
  destruct (_ || _); [cbn; intros ->%list_elem_of_singleton; by left|].
  destruct (selectedRepoData s) as [repo|] eqn:Hd;
    [|cbn; intros ->%list_elem_of_singleton; by left].
  destruct (selectedRepoData_Some s repo Hd) as (repos & Hl & Hin & Hn).
  destruct (net (keyCheckUrl s)) as [|[] ? ?]; cbn;
    [intros ->%list_elem_of_singleton; right; by exists repos, repo
    |intros ->%list_elem_of_singleton; right; by exists repos, repo
    |intros H; by apply elem_of_nil in H].
Qed.

(** X4: a submit requests the key check exactly when the prompt survives
    trimming, an owner and a repo are selected and the cached list of the
    owner holds a repo of the selected name; the request is then the one for
    the selected agent and model, and otherwise there is none. *)
Theorem key_check_requested_iff (s : TaskForm) (net : string -> KeyCheck) :
  (requests (run net (handleSubmit s)) = [keyCheckUrl s] \/
   requests (run net (handleSubmit s)) = []) /\
  (requests (run net (handleSubmit s)) <> [] <->
   Js.trim (prompt s) <> "" /\ selectedOwner s <> "" /\ selectedRepo s <> "" /\
   exists repos repo,
     githubRepos s !! selectedOwner s = Some repos /\ repo ∈ repos /\
     name repo = selectedRepo s).
Proof.
  rewrite run_handleSubmit.
  destruct (Js.truthy (Js.trim (prompt s))) eqn:Hp; cbn [negb].
  2:{ apply truthy_false in Hp. split; [by right|]. split; [done|]. by intros (? & _). }
  apply truthy_true in Hp.
  destruct (Js.truthy (selectedOwner s)) eqn:Ho; cbn [negb orb].
  2:{ apply truthy_false in Ho. split; [by right|]. split; [done|]. by intros (_ & ? & _). }
  apply truthy_true in Ho.
  destruct (Js.truthy (selectedRepo s)) eqn:Hr; cbn [negb].
  2:{ apply truthy_false in Hr. split; [by right|]. split; [done|]. by intros (_ & _ & ? & _). }
  apply truthy_true in Hr.
  destruct (selectedRepoData s) as [repo|] eqn:Hd.
  - destruct (selectedRepoData_Some s repo Hd) as (repos & Hl & Hin & Hn).
    assert (Hreq : forall tl, requests tl = [] ->
              requests (PreventDefault :: Fetch (keyCheckUrl s) :: tl) = [keyCheckUrl s])
      by (intros tl Htl; unfold requests in *; cbn; by rewrite Htl).
    rewrite Hreq by (by destruct (net (keyCheckUrl s)) as [|[] ? ?]).
    split; [by left|]. split; [intros _|done]. split_and!; try done. by exists repos, repo.
  - split; [by right|]. split; [done|]. intros (_ & _ & _ & repos & repo & Hl & Hin & Hn).
    exfalso. by apply (selectedRepoData_None s Hd repos repo).
Qed.

(** X5: when the key check answers that the key exists, the submit hands
    [onSubmit] the payload with the clone URL of the first cached repo of the
    selected name, right after the request, with no toast and no error log. *)
Theorem key_present_submits
    (s : TaskForm) (net : string -> KeyCheck) (repos : list GitHubRepo) (provider agentName : string) :
  Js.trim (prompt s) <> "" ->
  selectedOwner s <> "" ->
  selectedRepo s <> "" ->
  githubRepos s !! selectedOwner s = Some repos ->
  (exists r, r ∈ repos /\ name r = selectedRepo s) ->
  net (keyCheckUrl s) = KeyCheckJson true provider agentName ->
  exists repo,
    List.find (fun repo => String.eqb (name repo) (selectedRepo s)) repos = Some repo /\
    run net (handleSubmit s) =
      [PreventDefault; Fetch (keyCheckUrl s); OnSubmit (payload s (clone_url repo))].
Proof.
  intros Hp%truthy_true Ho%truthy_true Hr%truthy_true Hl Hex Hnet.
  destruct (find_name_some repos (selectedRepo s) Hex) as (repo & Hf & _ & _).
  exists repo. split; [done|].
  rewrite run_handleSubmit, Hp, Ho, Hr. cbn [negb orb].
  unfold selectedRepoData. rewrite Hl. cbn [mbind option_bind]. by rewrite Hf, Hnet.
Qed.

(** X6: a submit hands nothing to [onSubmit] in two cases only: the prompt
    is empty or white space, or the key check was requested and answered
    that the key is missing. *)
Theorem nothing_submitted_iff (s : TaskForm) (net : string -> KeyCheck) :
  submissions (run net (handleSubmit s)) = [] <->
  Js.blank (prompt s) = true \/
  (requests (run net (handleSubmit s)) = [keyCheckUrl s] /\
   exists provider agentName, net (keyCheckUrl s) = KeyCheckJson false provider agentName).
Proof.
  rewrite run_handleSubmit, <- trim_empty.
  destruct (Js.truthy (Js.trim (prompt s))) eqn:Hp; cbn [negb].
  2:{ apply truthy_false in Hp. split; [by left | done]. }
  apply truthy_true in Hp.
  destruct (_ || _); [cbn; split; [done | intros [?|[[=] _]]; done]|].
  destruct (selectedRepoData s) as [repo|]; [|cbn; split; [done | intros [?|[[=] _]]; done]].
  destruct (net (keyCheckUrl s)) as [|[] provider agentName]; cbn.
  - split; [done | intros [?|[_ (? & ? & [=])]]; done].
  - split; [done | intros [?|[_ (? & ? & [=])]]; done].
  - split; [intros _; right; split; [done | by exists provider, agentName] | done].
Qed.

(** X7: a submit writes nothing to the form, on any path: the prompt, the
    selection, the options and the caches are what they were, so a submit
    stopped by a missing key can be repeated as it is. *)
Theorem submit_leaves_form (s : TaskForm) (net net' : string -> KeyCheck) :
  commit (run net (handleSubmit s)) s = s /\
  run net' (handleSubmit (commit (run net (handleSubmit s)) s)) = run net' (handleSubmit s).
Proof.
  assert (H : commit (run net (handleSubmit s)) s = s).
  { rewrite run_handleSubmit.
    destruct (negb _); [done|]. destruct (_ || _); [done|].
    destruct (selectedRepoData s); [|done].
    by destruct (net (keyCheckUrl s)) as [|[] ? ?]. }
  by rewrite H.
Qed.

(** ** The keyboard handler and the submit button *)

Lemma run_handleTextareaKeyDown innerWidth form e s :
  handleTextareaKeyDown innerWidth form e s =
  if String.eqb (key e) "Enter" && negb (from_option (fun w => (w <? 768)%Z) false innerWidth)
     && negb (shiftKey e)
  then KeyPreventDefault ::
       (if Js.truthy (Js.trim (prompt s)) && form then [DispatchSubmit] else [])
  else [].
Proof.
  unfold handleTextareaKeyDown.
  destruct (String.eqb (key e) "Enter"); [|done]. cbn [andb].
  destruct (negb _ && negb _); [|done].
  by destruct (Js.truthy _), form.
Qed.

Lemma dispatch_needs_prompt innerWidth form e s :
  DispatchSubmit ∈ handleTextareaKeyDown innerWidth form e s -> Js.trim (prompt s) <> "".
Proof.
  rewrite run_handleTextareaKeyDown.
  destruct (_ && _ && _); [|intros H; by apply elem_of_nil in H].
  destruct (Js.truthy (Js.trim (prompt s))) eqn:Hp; cbn [andb].
  - intros _. by apply truthy_true.
  - intros [[=]|H%elem_of_nil]%elem_of_cons. done.
Qed.

(** X8: a key press submits the form exactly when the key is Enter, Shift is
    not held, the window is absent or at least 768 wide, the prompt survives
    trimming and the textarea is inside a form; on a narrower window Enter
    never submits, whatever the prompt. *)
Theorem key_submits_iff
    (innerWidth : option Z) (form : bool) (e : KeyboardEvent) (s : TaskForm) :
  DispatchSubmit ∈ handleTextareaKeyDown innerWidth form e s <->
  key e = "Enter" /\ shiftKey e = false /\
  (forall w, innerWidth = Some w -> (768 <= w)%Z) /\
  Js.trim (prompt s) <> "" /\ form = true.
Proof.
  rewrite run_handleTextareaKeyDown.
  destruct (String.eqb_spec (key e) "Enter") as [Hk|Hk]; cbn [andb].
  2:{ split; [intros H; by apply elem_of_nil in H | by intros (? & _)]. }
  assert (Hw : from_option (fun w => (w <? 768)%Z) false innerWidth = false <->
               forall w, innerWidth = Some w -> (768 <= w)%Z).
  { destruct innerWidth as [w|]; cbn.
    - rewrite Z.ltb_ge. split; [by intros ? ? [= <-] | intros H; by apply H].
    - split; [by intros | done]. }
  destruct (from_option _ _ innerWidth); cbn [negb andb].
  { split; [intros H; by apply elem_of_nil in H|]. intros (_ & _ & H%Hw & _). done. }
  destruct (shiftKey e); cbn [negb].
  { split; [intros H; by apply elem_of_nil in H | by intros (_ & ? & _)]. }
  destruct (Js.truthy (Js.trim (prompt s))) eqn:Hp; cbn [andb].
  2:{ apply truthy_false in Hp. split.
      - intros [[=]|H%elem_of_nil]%elem_of_cons. done.
      - by intros (_ & _ & _ & ? & _). }
  apply truthy_true in Hp. destruct form.
  - split; [intros _; split_and!; try done; by apply Hw|].
    intros _. apply list_elem_of_further, list_elem_of_here.
  - split; [|by intros (_ & _ & _ & _ & ?)].
    intros [[=]|H%elem_of_nil]%elem_of_cons. done.
Qed.

(** X9: the handler prevents the default action of a key (the new line)
    exactly when the key is Enter, Shift is not held and the window is
    absent or at least 768 wide, also when the prompt is blank and nothing
    is submitted; every other key press is left to the browser. *)
Theorem key_default_prevented_iff
    (innerWidth : option Z) (form : bool) (e : KeyboardEvent) (s : TaskForm) :
  (KeyPreventDefault ∈ handleTextareaKeyDown innerWidth form e s <->
   key e = "Enter" /\ shiftKey e = false /\
   (forall w, innerWidth = Some w -> (768 <= w)%Z)) /\
  (KeyPreventDefault ∉ handleTextareaKeyDown innerWidth form e s ->
   handleTextareaKeyDown innerWidth form e s = []).
Proof.
  rewrite run_handleTextareaKeyDown.
  assert (Hw : from_option (fun w => (w <? 768)%Z) false innerWidth = false <->
               forall w, innerWidth = Some w -> (768 <= w)%Z).
  { destruct innerWidth as [w|]; cbn.
    - rewrite Z.ltb_ge. split; [by intros ? ? [= <-] | intros H; by apply H].
    - split; [by intros | done]. }
  destruct (String.eqb_spec (key e) "Enter") as [Hk|Hk]; cbn [andb].
  2:{ split; [|done]. split; [intros H; by apply elem_of_nil in H | by intros (? & _)]. }
  destruct (from_option _ _ innerWidth); cbn [negb andb].
  { split; [|done]. split; [intros H; by apply elem_of_nil in H|].
    intros (_ & _ & H%Hw). done. }
  destruct (shiftKey e); cbn [negb].
  { split; [|done]. split; [intros H; by apply elem_of_nil in H | by intros (_ & ? & _)]. }
  split.
  - split; [intros _; split_and!; try done; by apply Hw | intros _; apply list_elem_of_here].
  - intros H. exfalso. apply H, list_elem_of_here.
Qed.

(** X10: a submit that the form lets start, by the enabled submit button or
    by the Enter key, is never dropped silently: it ends in a call of
    [onSubmit] or in the toast of the missing key. *)
Theorem started_submit_is_answered
    (innerWidth : option Z) (form isSubmitting : bool) (e : KeyboardEvent)
    (s : TaskForm) (net : string -> KeyCheck) :
  submitDisabled isSubmitting s = false \/
  DispatchSubmit ∈ handleTextareaKeyDown innerWidth form e s ->
  (length (toasts (run net (handleSubmit s))) +
   length (submissions (run net (handleSubmit s))) = 1)%nat.
Proof.
  intros H.
  assert (Hp : Js.truthy (Js.trim (prompt s)) = true).
  { destruct H as [H|H].
    - unfold submitDisabled in H. apply orb_false_iff in H as [_ H].
      by apply negb_false_iff in H.
    - apply dispatch_needs_prompt in H. by apply truthy_true. }
  rewrite run_handleSubmit, Hp. cbn [negb].
  destruct (_ || _); [done|]. destruct (selectedRepoData s); [|done].
  by destruct (net (keyCheckUrl s)) as [|[] ? ?].
Qed.

(** ** The option chips *)

(** An event that is not a choice in one of the two menus does not run the
    model effect. *)
Lemma step_without_rerun e s :
  match e with SelectAgent _ | SelectModel _ => False | _ => True end ->
  step e s = commit (handle e s) s.
Proof.
  intros He. unfold step, rerunModelEffect.
  destruct s as [o r p sa sm g a m l i d k], e; try done; cbn;
    (destruct (decide _) as [|Hne]; [done | by destruct Hne]).
Qed.

(** X11: the row of chips is rendered exactly when the badge of the options
    button counts at least one custom option; the count is the number of
    chips rendered and is at most three. *)
Theorem chips_agree_with_badge (maxSandboxDuration : Z) (s : TaskForm) :
  (chipsVisible maxSandboxDuration s = true <-> (0 < customOptionsCount maxSandboxDuration s)%nat) /\
  customOptionsCount maxSandboxDuration s =
    (Nat.b2n (skipInstallChip s) + Nat.b2n (durationChip maxSandboxDuration s) +
     Nat.b2n (keepAliveChip s))%nat /\
  (customOptionsCount maxSandboxDuration s <= 3)%nat.
Proof.
  unfold chipsVisible, customOptionsCount, skipInstallChip, durationChip, keepAliveChip.
  destruct (installDependencies s), (maxDuration s =? maxSandboxDuration)%Z, (keepAlive s);
    cbn; split_and!; try done; try lia; split; (done || lia).
Qed.

(** X12: the button of a chip removes that chip and leaves the other two as
    they are, so the count goes down by one for a chip that was rendered;
    after the three buttons no chip is rendered. *)
Theorem chip_buttons_clear_options (maxSandboxDuration : Z) (s : TaskForm) :
  (let s' := step clearSkipInstall s in
   skipInstallChip s' = false /\
   durationChip maxSandboxDuration s' = durationChip maxSandboxDuration s /\
   keepAliveChip s' = keepAliveChip s /\
   customOptionsCount maxSandboxDuration s' =
     (customOptionsCount maxSandboxDuration s - Nat.b2n (skipInstallChip s))%nat) /\
  (let s' := step (clearDuration maxSandboxDuration) s in
   durationChip maxSandboxDuration s' = false /\
   skipInstallChip s' = skipInstallChip s /\
   keepAliveChip s' = keepAliveChip s /\
   customOptionsCount maxSandboxDuration s' =
     (customOptionsCount maxSandboxDuration s - Nat.b2n (durationChip maxSandboxDuration s))%nat) /\
  (let s' := step clearKeepAlive s in
   keepAliveChip s' = false /\
   skipInstallChip s' = skipInstallChip s /\
   durationChip maxSandboxDuration s' = durationChip maxSandboxDuration s /\
   customOptionsCount maxSandboxDuration s' =
     (customOptionsCount maxSandboxDuration s - Nat.b2n (keepAliveChip s))%nat) /\
  chipsVisible maxSandboxDuration
    (runEvents [clearSkipInstall; clearDuration maxSandboxDuration; clearKeepAlive] s) = false.
Proof.
  unfold runEvents. cbn [foldl]. unfold clearSkipInstall, clearDuration, clearKeepAlive.
  rewrite !step_without_rerun by done.
  unfold chipsVisible, customOptionsCount, skipInstallChip, durationChip, keepAliveChip.
  destruct s as [o r p sa sm g a m l i d k]; cbn.
  rewrite Z.eqb_refl.
  destruct i, (d =? maxSandboxDuration)%Z, k; cbn; by split_and!.
Qed.

(** ** Cookies and atoms along a run of events *)

Lemma cookies_in_sync_step e s jar :
  (forall v, installDependenciesCookie jar = Some v -> installDependencies s = v) /\
  (forall v, maxDurationCookie jar = Some v -> maxDuration s = v) /\
  (forall v, keepAliveCookie jar = Some v -> keepAlive s = v) ->
  let jar' := foldl writeCookie jar (handle e s) in
  (forall v, installDependenciesCookie jar' = Some v -> installDependencies (step e s) = v) /\
  (forall v, maxDurationCookie jar' = Some v -> maxDuration (step e s) = v) /\
  (forall v, keepAliveCookie jar' = Some v -> keepAlive (step e s) = v).
Proof.
  intros (Hi & Hd & Hk). unfold step, rerunModelEffect.
  destruct (decide _) as [|_].
  - destruct s as [o r p sa sm g a m l i d k], e; cbn in *;
      split_and!; intros v0 Hv; try (by apply Hi); try (by apply Hd); try (by apply Hk);
      congruence.
  - assert (Hfr : forall s1,
      installDependencies (commit (modelEffect s1) s1) = installDependencies s1 /\
      maxDuration (commit (modelEffect s1) s1) = maxDuration s1 /\
      keepAlive (commit (modelEffect s1) s1) = keepAlive s1).
    { intros s1. unfold modelEffect. destruct s1 as [o r p sa sm g a m l i d k]; cbn.
      destruct (Js.truthy a); [|done].
      destruct (sm !! a) as [x|]; [destruct (_ && _); [done|]|];
        (destruct (DEFAULT_MODELS !! a) as [y|]; [destruct (Js.truthy y)|]; done). }
    destruct (Hfr (commit (handle e s) s)) as (-> & -> & ->).
    destruct s as [o r p sa sm g a m l i d k], e; cbn in *;
      split_and!; intros v0 Hv; try (by apply Hi); try (by apply Hd); try (by apply Hk);
      congruence.
Qed.

Lemma cookies_in_sync_run es s jar :
  (forall v, installDependenciesCookie jar = Some v -> installDependencies s = v) /\
  (forall v, maxDurationCookie jar = Some v -> maxDuration s = v) /\
  (forall v, keepAliveCookie jar = Some v -> keepAlive s = v) ->
  (forall v, installDependenciesCookie (cookiesAfter es s jar) = Some v ->
             installDependencies (runEvents es s) = v) /\
  (forall v, maxDurationCookie (cookiesAfter es s jar) = Some v ->
             maxDuration (runEvents es s) = v) /\
  (forall v, keepAliveCookie (cookiesAfter es s jar) = Some v ->
             keepAlive (runEvents es s) = v).
Proof.
  revert s jar. induction es as [|e es IH]; intros s jar H; [done|].
  cbn [cookiesAfter]. unfold runEvents. cbn [foldl]. apply IH.
  by apply cookies_in_sync_step.
Qed.

(** X13: along any run of events, the last value each option cookie setter
    was called with is the value the form holds for that option: the
    handlers write the state and call the setter together, and nothing else
    writes the option. *)
Theorem option_cookies_follow_form (es : list Event) (s : TaskForm) :
  (forall v, installDependenciesCookie (cookiesAfter es s emptyJar) = Some v ->
             installDependencies (runEvents es s) = v) /\
  (forall v, maxDurationCookie (cookiesAfter es s emptyJar) = Some v ->
             maxDuration (runEvents es s) = v) /\
  (forall v, keepAliveCookie (cookiesAfter es s emptyJar) = Some v ->
             keepAlive (runEvents es s) = v).
Proof. apply cookies_in_sync_run. by split_and!. Qed.

(** ** Mounting, choosing and reloading *)

Lemma applyUpdate_SetSelectedModel_id s : applyUpdate (SetSelectedModel (selectedModel s)) s = s.
Proof. by destruct s. Qed.

(** The model effect writes the selected model and nothing else. *)
Lemma commit_modelEffect_fields s :
  exists m, commit (modelEffect s) s = applyUpdate (SetSelectedModel m) s.
Proof.
  unfold modelEffect.
  assert (Hid : exists m, commit [] s = applyUpdate (SetSelectedModel m) s)
    by (exists (selectedModel s); by rewrite applyUpdate_SetSelectedModel_id).
  destruct (Js.truthy (selectedAgent s)); [|done].
  destruct (savedModels s !! selectedAgent s) as [x|];
    [destruct (_ && _); [by exists x|]|];
    (destruct (DEFAULT_MODELS !! selectedAgent s) as [y|];
     [destruct (Js.truthy y); [by exists y|]|]; done).
Qed.

Lemma step_fields e s :
  exists m, step e s = applyUpdate (SetSelectedModel m) (commit (handle e s) s).
Proof.
  unfold step, rerunModelEffect. destruct (decide _).
  - exists (selectedModel (commit (handle e s) s)). by rewrite applyUpdate_SetSelectedModel_id.
  - apply commit_modelEffect_fields.
Qed.



(** X15: the agent chosen in the menu is the agent of the next mount whose
    URL names no agent of the catalog, and the model of that mount is the
    persisted model of the agent if the agent has it, else its default. *)
Theorem agent_choice_survives_reload
    (s : TaskForm) (v : string) (props : Props.t) (url : Url.t) :
  isAgent v = true ->
  from_option isAgent false (Url.agent url) = false ->
  let s' := mount props (atomsOf (step (SelectAgent v) s)) url in
  selectedAgent s' = v /\
  selectedModel s' = spec_persistedOrDefault v (savedModels s !! v).
Proof.
  intros Hv Hurl. cbn zeta.
  destruct (step_SelectAgent_fields s v Hv) as [m Hstep].
  pose proof (mount_model props (atomsOf (step (SelectAgent v) s)) url) as Hm.
  destruct (mount_settled props (atomsOf (step (SelectAgent v) s)) url) as (_ & Ha & _).
  cbn zeta in Hm. rewrite Hm, Ha. rewrite Hstep.
  assert (Hr : spec_resolveAgent (Url.agent url)
                 (Atoms.lastSelectedAgent
                    (atomsOf (applyUpdate (SetSelectedModel m)
                       (applyUpdate (SetSavedAgent v) (applyUpdate (SetSelectedAgent v) s))))) = v).
  { destruct s as [o r p sa sm g a m0 l i d k]; cbn. unfold spec_resolveAgent.
    destruct (Url.agent url) as [ua|]; cbn in Hurl; rewrite ?Hurl, Hv; done. }
  rewrite Hr. split; [done|]. by destruct s.
Qed.

Lemma runEvents_snoc es e s : runEvents (es ++ [e]) s = step e (runEvents es s).
Proof. unfold runEvents. by rewrite foldl_app. Qed.

(** X16: once an agent has been chosen in the menu, the persisted agent is
    the selected agent, after every later event. *)
Theorem persisted_agent_is_selected (es : list Event) (s : TaskForm) :
  (exists v, SelectAgent v ∈ es) ->
  savedAgent (runEvents es s) = Some (selectedAgent (runEvents es s)).
Proof.
  induction es as [|e es IH] using rev_ind; intros [v Hv]; [by apply elem_of_nil in Hv|].
  rewrite runEvents_snoc.
  destruct (step_fields e (runEvents es s)) as [m ->].
  destruct e as [v'| | | | | | |];
    try (assert (IH' : savedAgent (runEvents es s) = Some (selectedAgent (runEvents es s)))
           by (apply IH; exists v; apply elem_of_app in Hv as [Hv|Hv%list_elem_of_singleton];
               [done | discriminate]);
         revert IH'; by destruct (runEvents es s)).
  by destruct (runEvents es s).
Qed.

(** X17: a model chosen for an agent is remembered for that agent: after
    choosing the model, another agent, and the first agent again, the form
    shows the first agent with the chosen model. *)
Theorem model_is_remembered_per_agent (s : TaskForm) (m b : string) :
  reachable s ->
  hasModel (selectedAgent s) m = true ->
  isAgent b = true ->
  let s' := runEvents [SelectModel m; SelectAgent b; SelectAgent (selectedAgent s)] s in
  selectedAgent s' = selectedAgent s /\ selectedModel s' = m /\
  savedModels s' !! selectedAgent s = Some m.
Proof.
  intros Hs%reachable_settled Hm Hb. unfold runEvents. cbn [foldl].
  pose proof (hasModel_isAgent _ _ Hm) as Ha.
  pose proof (step_settled (SelectModel m) s Hs Hm) as Hs1.
  set (s1 := step (SelectModel m) s) in *.
  assert (H1 : savedModels s1 !! selectedAgent s = Some m)
    by (subst s1; rewrite step_SelectModel by done; destruct s; cbn; apply lookup_insert_eq).
  pose proof (step_settled (SelectAgent b) s1 Hs1 Hb) as Hs2.
  destruct (step_SelectAgent_fields s1 b Hb) as [m2 H2].
  set (s2 := step (SelectAgent b) s1) in *.
  assert (H2' : savedModels s2 = savedModels s1) by (rewrite H2; by destruct s1).
  destruct (step_SelectAgent s2 (selectedAgent s) Hs2 Ha) as (Hag & _ & Hmod).
  destruct (step_SelectAgent_fields s2 (selectedAgent s) Ha) as [m3 H3].
  split_and!.
  - done.
  - rewrite Hmod, H2', H1. unfold spec_persistedOrDefault. by rewrite Hm.
  - rewrite H3. transitivity (savedModels s2 !! selectedAgent s); [by destruct s2|].
    by rewrite H2'.
Qed.

(** X18: between events the selected agent is one of the agents of the
    catalog and the selected model is the default model of that agent, so
    the key check of a submit always names a pair of the catalog. *)
Theorem selection_is_catalog_default (s : TaskForm) :
  reachable s ->
  isAgent (selectedAgent s) = true /\
  DEFAULT_MODELS !! selectedAgent s = Some (selectedModel s) /\
  keyCheckUrl s ∈
    [ "/api/api-keys/check?agent=codex&model=gpt-5.1-codex";
      "/api/api-keys/check?agent=claude&model=claude-sonnet-4-5-20250929";
      "/api/api-keys/check?agent=opencode&model=gemini-3-pro-preview" ].
Proof.
  intros [Ha Hm]%reachable_settled.
  assert (Hd : DEFAULT_MODELS !! selectedAgent s = Some (selectedModel s)).
  { apply only_model_is_default. rewrite Hm. by apply persistedOrDefault_valid. }
  split_and!; [done | done |].
  unfold keyCheckUrl. revert Hd. generalize (selectedModel s). intros x Hd.
  apply isAgent_cases in Ha as [Ha | [Ha | Ha]]; rewrite Ha in *;
    vm_compute in Hd; injection Hd as <-.
  - apply list_elem_of_here.
  - apply list_elem_of_further, list_elem_of_here.
  - do 2 apply list_elem_of_further. apply list_elem_of_here.
Qed.

(** ** More on the repository effect *)

Lemma run_repoEffect (s : TaskForm) (net : string -> ReposResponse) :
  run net (repoEffect s) =
  if negb (Js.truthy (selectedOwner s)) then [Set_ (SetRepos (selectedOwner s) None)]
  else
    Set_ (SetLoadingRepos true) ::
    if from_option (fun repos : list GitHubRepo => (0 <? length repos)%nat) false
         (githubRepos s !! selectedOwner s)
    then [Set_ (SetLoadingRepos false); Set_ (SetLoadingRepos false)]
    else
      Fetch (reposUrl (selectedOwner s)) ::
      match net (reposUrl (selectedOwner s)) with
      | ReposJson reposList =>
          [Set_ (SetRepos (selectedOwner s) (Some reposList)); Set_ (SetLoadingRepos false)]
      | ReposNotOk => [Set_ (SetLoadingRepos false)]
      | ReposFetchThrows | ReposJsonThrows =>
          [ConsoleError "Error fetching repositories:"; Set_ (SetLoadingRepos false)]
      end.
Proof.
  unfold repoEffect, fetchRepos. destruct (negb _); [done|]. cbn [run].
  destruct (from_option _ _ _); [done|]. cbn [run].
  by destruct (net (reposUrl (selectedOwner s))).
Qed.

(** X19: a run of the repository effect writes the cached list of the
    selected owner and the loading flag and nothing else: the lists of the
    other owners, the prompt, the selection, the persisted choices and the
    options stay; with an owner selected the loading flag is off at the end
    on every path, and the run makes at most one request, shows no toast and
    submits nothing. *)
Theorem repository_effect_frame (s : TaskForm) (net : string -> ReposResponse) :
  let acts := run net (repoEffect s) in
  let s' := commit acts s in
  (forall o, o <> selectedOwner s -> githubRepos s' !! o = githubRepos s !! o) /\
  (selectedOwner s <> "" -> loadingRepos s' = false) /\
  (selectedOwner s = "" -> loadingRepos s' = loadingRepos s) /\
  (selectedOwner s' = selectedOwner s /\ selectedRepo s' = selectedRepo s /\
   prompt s' = prompt s /\ savedAgent s' = savedAgent s /\ savedModels s' = savedModels s /\
   selectedAgent s' = selectedAgent s /\ selectedModel s' = selectedModel s /\
   installDependencies s' = installDependencies s /\ maxDuration s' = maxDuration s /\
   keepAlive s' = keepAlive s) /\
  (length (requests acts) <= 1)%nat /\
  toasts acts = [] /\ submissions acts = [].
Proof.
  cbn zeta. rewrite run_repoEffect.
  destruct s as [o r p sa sm g a m l i d k]; cbn [selectedOwner githubRepos loadingRepos].
  destruct (Js.truthy o) eqn:Ho; cbn [negb].
  - apply truthy_true in Ho.
    destruct (from_option _ _ (g !! o)) eqn:Hc.
    + cbn. split_and!; try done. lia.
    + destruct (net (reposUrl o)) as [| | |reposList]; cbn; split_and!; try done; try lia.
      intros o' Hne. by rewrite lookup_insert_ne.
  - apply truthy_false in Ho. cbn. split_and!; try done; try lia.
    intros o' Hne. by rewrite lookup_delete_ne.
Qed.

(** X20: when the cached list of the selected owner is null or empty, a
    response whose status is not OK is dropped without a trace: no error
    log, no toast, no write to the cache; a request or a body that throws is
    logged once, and the cache is not written either. *)
Theorem repository_failures (s : TaskForm) (net : string -> ReposResponse) :
  selectedOwner s <> "" ->
  githubRepos s !! selectedOwner s = None \/ githubRepos s !! selectedOwner s = Some [] ->
  let acts := run net (repoEffect s) in
  (net (reposUrl (selectedOwner s)) = ReposNotOk ->
     errorLogs acts = [] /\ toasts acts = [] /\
     githubRepos (commit acts s) = githubRepos s) /\
  (net (reposUrl (selectedOwner s)) = ReposFetchThrows \/
   net (reposUrl (selectedOwner s)) = ReposJsonThrows ->
     errorLogs acts = ["Error fetching repositories:"] /\ toasts acts = [] /\
     githubRepos (commit acts s) = githubRepos s).
Proof.
  intros Ho%truthy_true Hl. cbn zeta. rewrite run_repoEffect, Ho. cbn [negb].
  assert (Hc : from_option (fun repos : list GitHubRepo => (0 <? length repos)%nat) false
                 (githubRepos s !! selectedOwner s) = false) by (by destruct Hl as [-> | ->]).
  rewrite Hc. destruct s as [o r p sa sm g a m l i d k]; cbn in *.
  split.
  - by intros ->.
  - by intros [-> | ->].
Qed.

(** X21: after a parsed answer to a request for an owner whose list was
    null, the write to the cache runs the effect again; that second run
    makes no request when the answer held a repo, and makes the same request
    again when the answer was the empty list. *)
Theorem repository_rerun_after_answer
    (s : TaskForm) (net net' : string -> ReposResponse) (reposList : list GitHubRepo) :
  selectedOwner s <> "" ->
  githubRepos s !! selectedOwner s = None ->
  net (reposUrl (selectedOwner s)) = ReposJson reposList ->
  let s' := commit (run net (repoEffect s)) s in
  rerunRepoEffect s s' = repoEffect s' /\
  requests (run net' (repoEffect s')) =
    match reposList with [] => [reposUrl (selectedOwner s)] | _ :: _ => [] end.
Proof.
  intros Ho Hl Hnet. cbn zeta.
  assert (Hs' : commit (run net (repoEffect s)) s =
                applyUpdate (SetLoadingRepos false)
                  (applyUpdate (SetRepos (selectedOwner s) (Some reposList)) s)).
  { rewrite run_repoEffect. apply truthy_true in Ho. rewrite Ho, Hl, Hnet. by destruct s. }
  rewrite Hs'. split.
  - unfold rerunRepoEffect. destruct (decide _) as [Heq|]; [|done].
    exfalso. revert Heq. unfold repoEffectDeps. rewrite Hl.
    destruct s as [o r p sa sm g a m l i d k]; cbn. rewrite lookup_insert_eq. done.
  - rewrite run_repoEffect.
    destruct s as [o r p sa sm g a m l i d k]; cbn in *.
    apply truthy_true in Ho. rewrite Ho, lookup_insert_eq. cbn.
    destruct reposList as [|x rest]; cbn; [|done].
    by destruct (net' (reposUrl o)).
Qed.

(** X22: once the list of the selected owner has arrived and holds a repo of
    the selected name, a submit asks for the key check; before it arrived
    the same submit asked for nothing and submitted an empty [repoUrl]. *)
Theorem submit_after_repositories_arrive
    (s : TaskForm) (net : string -> ReposResponse) (check : string -> KeyCheck)
    (reposList : list GitHubRepo) :
  Js.trim (prompt s) <> "" ->
  selectedOwner s <> "" ->
  selectedRepo s <> "" ->
  githubRepos s !! selectedOwner s = None ->
  net (reposUrl (selectedOwner s)) = ReposJson reposList ->
  (exists r, r ∈ reposList /\ name r = selectedRepo s) ->
  let s' := commit (run net (repoEffect s)) s in
  run check (handleSubmit s) = [PreventDefault; OnSubmit (payload s "")] /\
  requests (run check (handleSubmit s')) = [keyCheckUrl s] /\
  forall d, d ∈ submissions (run check (handleSubmit s')) ->
            exists repo, repo ∈ reposList /\ name repo = selectedRepo s /\
                         d = payload s (clone_url repo).
Proof.
  intros Hp Ho Hr Hl Hnet Hex. cbn zeta.
  assert (Hs' : commit (run net (repoEffect s)) s =
                applyUpdate (SetLoadingRepos false)
                  (applyUpdate (SetRepos (selectedOwner s) (Some reposList)) s)).
  { rewrite run_repoEffect. apply truthy_true in Ho. rewrite Ho, Hl, Hnet. by destruct s. }
  rewrite Hs'. clear Hs'.
  destruct (find_name_some reposList (selectedRepo s) Hex) as (repo & Hf & Hin & Hn).
  apply truthy_true in Hp, Ho, Hr.
  split; [|split].
  - rewrite run_handleSubmit, Hp, Ho, Hr. unfold selectedRepoData. by rewrite Hl.
  - rewrite run_handleSubmit.
    destruct s as [o r p sa sm g a m l i d k]; cbn in *.
    rewrite Hp, Ho, Hr. unfold selectedRepoData. cbn. rewrite lookup_insert_eq. cbn. rewrite Hf.
    unfold keyCheckUrl. cbn. by destruct (check _) as [|[] ? ?].
  - intros d. rewrite run_handleSubmit.
    destruct s as [o r p sa sm g a m l i d0 k]; cbn in *.
    rewrite Hp, Ho, Hr. unfold selectedRepoData. cbn. rewrite lookup_insert_eq. cbn. rewrite Hf.
    destruct (check _) as [|[] ? ?]; cbn;
      [intros ->%list_elem_of_singleton; by exists repo
      |intros ->%list_elem_of_singleton; by exists repo
      |intros H; by apply elem_of_nil in H].
Qed.

(** ** More on the reset script *)

Section ResetMore.
Import Script.

Lemma query_after q w :
  exists r, (query q w = ([Query q], drop w q, Ok tt) /\ r = Ok tt) \/
            (exists e, query q w = ([Query q], w, Threw e) /\ r = Threw e).
Proof.
  unfold query, drop. destruct (fault w q) as [e|].
  - exists (Threw e). right. by exists e.
  - destruct (execute q w) as [w'|e].
    + exists (Ok tt). by left.
    + exists (Threw e). right. by exists e.
Qed.

(** Whatever the server answers, the world after the statements is the
    world after the drops of some of the first of them. *)
Lemma inOrder_after qs line w :
  exists pre, pre `prefix_of` qs /\
              after (inOrder qs (emit (Log line))) w = foldl drop w pre /\
              exitCodes (trace (inOrder qs (emit (Log line))) w) = [].
Proof.
  revert w. induction qs as [|q qs IH]; intros w.
  - exists []. by split_and!.
  - unfold after, trace. rewrite inOrder_cons.
    destruct (query_after q w) as [r [[-> _]|(e & -> & _)]].
    + destruct (IH (drop w q)) as (pre & Hpre & Hafter & Hexit).
      unfold after, trace in Hafter, Hexit.
      destruct (inOrder qs (emit (Log line)) (drop w q)) as [[t2 w2] r2]. cbn in *.
      exists (q :: pre). split_and!; [by apply prefix_cons | done | done].
    + exists []. split_and!; [apply prefix_nil | done | done].
Qed.

Lemma dropScript_after qs w :
  exists pre, pre `prefix_of` qs /\ after (dropScript qs) w = foldl drop w pre /\
              exitCodes (trace (dropScript qs) w) = [].
Proof.
  unfold after, trace, dropScript. rewrite guarded_run.
  destruct (env w !! "POSTGRES_URL") as [[|c url]|];
    try (exists []; split_and!; [apply prefix_nil | done | done]).
  assert (Hbody :
    (emit (Log "  Dropping all tables...");;
     inOrder qs (emit (Log "✓ Database reset completed"))) w =
    let '(t2, w2, r) := inOrder qs (emit (Log "✓ Database reset completed")) w in
    ([Log "  Dropping all tables..."] ++ t2, w2, r)) by reflexivity.
  rewrite Hbody. clear Hbody.
  destruct (inOrder_after qs "✓ Database reset completed" w) as (pre & Hpre & Hafter & Hexit).
  unfold after, trace in Hafter, Hexit.
  destruct (inOrder qs _ w) as [[tb wb] rb]. cbn [fst snd] in *.
  exists pre. split_and!; [done | done |].
  unfold exitCodes in *. rewrite !omap_app, Hexit. by destruct rb.
Qed.








End ResetMore.


Section ResetRuns.
Import Script.

Lemma foldl_drop_fault qs w : fault (foldl drop w qs) = fault w.
Proof.
  revert w. induction qs as [|q qs IH]; intros w; [done|]. cbn.
  rewrite IH. by destruct (drop_oracles q w) as (-> & _).
Qed.

Lemma dropScript_ok_after qs w url :
  env w !! "POSTGRES_URL" = Some url -> url <> "" ->
  (forall q, fault w q = None) ->
  Forall (fun q => ifExists q = true) qs ->
  after (dropScript qs) w = foldl drop w qs.
Proof.
  intros Hurl Hne Hf Hall.
  destruct (dropScript_run qs w url Hurl Hne) as (tb & wb & rb & Hb & Hrun).
  rewrite (inOrder_ok qs _ w Hf Hall) in Hb.
  pose proof (f_equal (fun x => x.1.2) Hb) as Hw. cbn beta in Hw. cbn [fst snd] in Hw.
  unfold after. rewrite Hrun. cbn [fst snd]. by symmetry.
Qed.

Lemma drop_absent_id q w : ifExists q = true -> ~ present q w -> drop w q = w.
Proof.
  unfold drop, present. destruct q as [n b c|n b c]; cbn; intros -> Hn;
    by destruct (decide _).
Qed.

Lemma foldl_drop_absent_id qs w :
  Forall (fun q => ifExists q = true) qs -> (forall q, q ∈ qs -> ~ present q w) ->
  foldl drop w qs = w.
Proof.
  intros Hall. induction Hall as [|q qs Hq _ IH]; intros Habs; [done|]. cbn.
  rewrite drop_absent_id; [|done|apply Habs, list_elem_of_here].
  apply IH. intros q' Hq'. by apply Habs, list_elem_of_further.
Qed.

(** A second run of the script over any statements that carry [IF EXISTS]. *)
Lemma dropScript_twice qs w url :
  env w !! "POSTGRES_URL" = Some url -> url <> "" ->
  (forall q, fault w q = None) ->
  Forall (fun q => ifExists q = true) qs ->
  let w1 := after (dropScript qs) w in
  trace (dropScript qs) w1 = trace (dropScript qs) w /\
  outcome (dropScript qs) w1 = outcome (dropScript qs) w /\
  after (dropScript qs) w1 = w1.
Proof.
  intros Hurl Hne Hf Hall. cbn zeta.
  rewrite (dropScript_ok_after qs w url Hurl Hne Hf Hall).
  destruct (foldl_drop_oracles qs w) as [Hcl Henv].
  assert (Hurl1 : env (foldl drop w qs) !! "POSTGRES_URL" = Some url) by (by rewrite Henv).
  assert (Hf1 : forall q, fault (foldl drop w qs) q = None)
    by (intros q; by rewrite foldl_drop_fault).
  destruct (dropScript_ok qs w url Hurl Hne Hf Hall) as (Ht & Hr & _ & _).
  destruct (dropScript_ok qs (foldl drop w qs) url Hurl1 Hne Hf1 Hall) as (Ht1 & Hr1 & _ & _).
  rewrite Ht, Ht1, Hr, Hr1, Hcl.
  rewrite (dropScript_ok_after qs (foldl drop w qs) url Hurl1 Hne Hf1 Hall).
  split_and!; [done | done |].
  apply foldl_drop_absent_id; [done|]. intros q Hq. by apply foldl_drop_absent.
Qed.

(** The run that meets a fault at one statement. *)
Lemma inOrder_fault pre q post line w e :
  (forall q', q' ∈ pre -> fault w q' = None) ->
  Forall (fun q => ifExists q = true) pre ->
  fault w q = Some e ->
  inOrder (pre ++ q :: post) (emit (Log line)) w =
    (map Query (pre ++ [q]), foldl drop w pre, Threw e).
Proof.
  intros Hpre Hall. revert w Hpre. induction Hall as [|p pre Hp _ IH]; intros w Hpre Hq.
  - cbn [app]. rewrite inOrder_cons. unfold query. by rewrite Hq.
  - cbn [app]. rewrite inOrder_cons, query_ok; [|apply Hpre, list_elem_of_here|done].
    destruct (drop_oracles p w) as (Hfd & _).
    rewrite IH; [done | |by rewrite Hfd].
    intros q' Hq'. rewrite Hfd. by apply Hpre, list_elem_of_further.
Qed.

Lemma dropScript_fault pre q post w url e :
  env w !! "POSTGRES_URL" = Some url -> url <> "" ->
  (forall q', q' ∈ pre -> fault w q' = None) ->
  Forall (fun q => ifExists q = true) pre ->
  fault w q = Some e ->
  trace (dropScript (pre ++ q :: post)) w =
    [Log "→ Resetting database..."; Connect url 1; Log "  Dropping all tables..."] ++
    map Query (pre ++ [q]) ++ [LogError "✗ Database reset failed:"; EndClient] /\
  after (dropScript (pre ++ q :: post)) w = foldl drop w pre /\
  outcome (dropScript (pre ++ q :: post)) w =
    match closing w with Some e' => Threw e' | None => Threw e end.
Proof.
  intros Hurl Hne Hpre Hall Hq.
  destruct (dropScript_run (pre ++ q :: post) w url Hurl Hne) as (tb & wb & rb & Hb & Hrun).
  rewrite (inOrder_fault pre q post _ w e Hpre Hall Hq) in Hb.
  pose proof (f_equal (fun x => x.1.1) Hb) as Ht.
  pose proof (f_equal (fun x => x.1.2) Hb) as Hw.
  pose proof (f_equal (fun x => x.2) Hb) as Hr.
  cbn beta in Ht, Hw, Hr. cbn [fst snd] in Ht, Hw, Hr. clear Hb. subst tb wb rb.
  unfold trace, after, outcome. rewrite Hrun. cbn [fst snd]. clear Hrun.
  destruct (foldl_drop_oracles pre w) as [-> _].
  split; [reflexivity | split; reflexivity].
Qed.

End ResetRuns.

(** X24: when the server raises no fault, a second run of the reset script
    right after the first sends the same eleven statements, ends the same
    way and leaves the database as the first run left it. *)
Theorem reset_twice (w : Script.World) (url : string) :
  Script.env w !! "POSTGRES_URL" = Some url -> url <> "" ->
  (forall q, Script.fault w q = None) ->
  let w1 := Script.after Script.resetDatabase w in
  Script.trace Script.resetDatabase w1 = Script.trace Script.resetDatabase w /\
  Script.outcome Script.resetDatabase w1 = Script.outcome Script.resetDatabase w /\
  Script.after Script.resetDatabase w1 = w1.
Proof.
  intros Hurl Hne Hf. rewrite resetDatabase_dropScript.
  apply (dropScript_twice Script.resetStatements w url Hurl Hne Hf).
  repeat constructor.
Qed.

(** X25: the reset script stops at the first statement the server refuses:
    the statements after it are not sent, the drops before it are not undone,
    the failure is logged, the client is closed, and the script rejects with
    the error of the server, or with the error of [end] if that fails too. *)
Theorem reset_stops_at_fault
    (w : Script.World) (url e : string) (pre post : list Script.Statement) (q : Script.Statement) :
  Script.env w !! "POSTGRES_URL" = Some url -> url <> "" ->
  Script.resetStatements = pre ++ q :: post ->
  (forall q', q' ∈ pre -> Script.fault w q' = None) ->
  Script.fault w q = Some e ->
  Script.trace Script.resetDatabase w =
    [Script.Log "→ Resetting database..."; Script.Connect url 1;
     Script.Log "  Dropping all tables..."] ++
    map Script.Query (pre ++ [q]) ++
    [Script.LogError "✗ Database reset failed:"; Script.EndClient] /\
  Script.after Script.resetDatabase w = foldl Script.drop w pre /\
  Script.outcome Script.resetDatabase w =
    match Script.closing w with Some e' => Script.Threw e' | None => Script.Threw e end.
Proof.
  intros Hurl Hne Hsplit Hpre Hq. rewrite resetDatabase_dropScript, Hsplit.
  apply (dropScript_fault pre q post w url e Hurl Hne Hpre); [|exact Hq].
  assert (Hall : Forall (fun q => Script.ifExists q = true) Script.resetStatements)
    by (repeat constructor).
  rewrite Hsplit in Hall. by apply Forall_app in Hall as [Hall _].
Qed.

(** X26: run as the main module, the reset script exits exactly once, with 0
    when [resetDatabase] resolved and 1 when it rejected; without a
    non-empty [POSTGRES_URL] it exits with 1 having created no client, sent
    no statement and left the database as it was. *)
Theorem reset_entry_point (w : Script.World) :
  Script.exitCodes (Script.resetMain w).1 =
    [match Script.outcome Script.resetDatabase w with
     | Script.Ok _ => 0%Z
     | Script.Threw _ => 1%Z
     end] /\
  (exists t, (Script.resetMain w).1 = t ++ [Script.Exit
     match Script.outcome Script.resetDatabase w with
     | Script.Ok _ => 0%Z
     | Script.Threw _ => 1%Z
     end]) /\
  (Script.truthy (Script.env w !! "POSTGRES_URL") = false ->
     Script.exitCodes (Script.resetMain w).1 = [1%Z] /\
     Script.connections (Script.resetMain w).1 = [] /\
     Script.statements (Script.resetMain w).1 = [] /\
     (Script.resetMain w).2 = w).
Proof.
  rewrite resetDatabase_dropScript.
  destruct (dropScript_after Script.resetStatements w) as (pre & _ & _ & Hexit).
  unfold Script.resetMain, Script.outcome, Script.trace in *.
  rewrite resetDatabase_dropScript.
  split; [|split].
  - destruct (Script.dropScript Script.resetStatements w) as [[t w'] [[]|e]];
      cbn [fst snd] in *; unfold Script.exitCodes in *; by rewrite omap_app, Hexit.
  - destruct (Script.dropScript Script.resetStatements w) as [[t w'] [[]|e]]; cbn [fst snd].
    + by exists (t ++ [Script.Log "✓ Now run: pnpm db:migrate:run"]); rewrite <- app_assoc.
    + by exists (t ++ [Script.LogError "✗ Reset failed:"]); rewrite <- app_assoc.
  - intros Henv. unfold Script.dropScript. rewrite guarded_run.
    unfold Script.truthy in Henv.
    destruct (Script.env w !! "POSTGRES_URL") as [[|c url]|]; try done.
Qed.

(** X27: when the migrator resolves and [end] then rejects, the runner has
    already logged the success line and does not log a migration failure,
    yet it rejects with the error of [end], and the entry point logs its own
    failure line and exits with 1. *)
Theorem migration_close_failure (w : Script.World) (url e : string) :
  Script.env w !! "POSTGRES_URL" = Some url -> url <> "" ->
  Script.migration w = None ->
  Script.closing w = Some e ->
  Script.trace Script.runMigrations w =
    [ Script.Log "→ Running database migrations..."; Script.Connect url 1;
      Script.Migrate "./lib/db/migrations";
      Script.Log "✓ Database migrations completed successfully";
      Script.EndClient ] /\
  Script.outcome Script.runMigrations w = Script.Threw e /\
  (Script.migrateMain w).1 =
    Script.trace Script.runMigrations w ++
    [Script.LogError "✗ Migration script failed:"; Script.Exit 1] /\
  (Script.migrateMain w).2 = w.
Proof.
  intros Hurl Hne Hm Hc.
  unfold Script.trace, Script.outcome, Script.migrateMain. rewrite runMigrations_run, Hurl.
  destruct url as [|c url]; [done|]. by rewrite Hm, Hc.
Qed.

(** X28: for every model name, the keys required for opencode are one or
    two distinct providers among gemini, anthropic and aigateway, never
    openai or cursor, and the table of the submit handler has a display name
    for each of them, so the toast never shows the bare identifier. *)
Theorem opencode_keys_are_named (m : string) :
  getOpenCodeRequiredKeys m <> [] /\
  (length (getOpenCodeRequiredKeys m) <= 2)%nat /\
  NoDup (getOpenCodeRequiredKeys m) /\
  (forall p, p ∈ getOpenCodeRequiredKeys m ->
     (p = gemini \/ p = anthropic \/ p = aigateway) /\
     is_Some (providerNames !! providerId p) /\
     providerName (providerId p) <> providerId p).
Proof.
  assert (Hnames : forall p, p = gemini \/ p = anthropic \/ p = aigateway ->
            is_Some (providerNames !! providerId p) /\ providerName (providerId p) <> providerId p).
  { intros p [-> | [-> | ->]]; (split; [vm_compute; by eexists | vm_compute; discriminate]). }
  unfold getOpenCodeRequiredKeys.
  destruct (Js.includes m "gemini"); [|destruct (_ || _ || _); [|destruct (Js.includes m "gpt")]].
  - split_and!; [done | cbn; lia | apply NoDup_singleton |].
    intros p ->%list_elem_of_singleton. split; [tauto | apply Hnames; tauto].
  - split_and!; [done | cbn; lia | apply NoDup_singleton |].
    intros p ->%list_elem_of_singleton. split; [tauto | apply Hnames; tauto].
  - split_and!; [done | cbn; lia | apply NoDup_singleton |].
    intros p ->%list_elem_of_singleton. split; [tauto | apply Hnames; tauto].
  - split_and!; [done | cbn; lia | |].
    + apply NoDup_cons. split; [by intros ?%list_elem_of_singleton | apply NoDup_singleton].
    + intros p [-> | ->%list_elem_of_singleton]%elem_of_cons; (split; [tauto | apply Hnames; tauto]).
Qed.

(** ** The further theorems at sample inputs *)

Lemma submitted_payload_fields_witness :
  Payload.prompt samplePayload = Js.trim (prompt sampleForm) /\
  Payload.prompt samplePayload <> "" /\
  (forall c t, Payload.prompt samplePayload = String c t -> Js.isWhiteSpace c = false) /\
  (forall pre c, Payload.prompt samplePayload = pre +:+ String c "" -> Js.isWhiteSpace c = false) /\
  Payload.selectedAgent samplePayload = selectedAgent sampleForm /\
  Payload.selectedModel samplePayload = selectedModel sampleForm /\
  Payload.installDependencies samplePayload = installDependencies sampleForm /\
  Payload.maxDuration samplePayload = maxDuration sampleForm /\
  Payload.keepAlive samplePayload = keepAlive sampleForm.
Proof.
  apply (submitted_payload_fields sampleForm offline samplePayload).
  vm_compute. apply list_elem_of_here.
Defined.

Lemma submitted_repoUrl_origin_witness :
  (Payload.repoUrl samplePayload = "" /\ requests (run offline (handleSubmit sampleForm)) = []) \/
  (exists repos repo,
     githubRepos sampleForm !! selectedOwner sampleForm = Some repos /\ repo ∈ repos /\
     name repo = selectedRepo sampleForm /\ Payload.repoUrl samplePayload = clone_url repo /\
     requests (run offline (handleSubmit sampleForm)) = [keyCheckUrl sampleForm]).
Proof.
  apply (submitted_repoUrl_origin sampleForm offline samplePayload).
  vm_compute. apply list_elem_of_here.
Defined.

Lemma key_present_submits_witness :
  exists repo,
    List.find (fun repo => String.eqb (name repo) (selectedRepo sampleForm)) [sampleRepo] = Some repo /\
    run keyPresent (handleSubmit sampleForm) =
      [PreventDefault; Fetch (keyCheckUrl sampleForm); OnSubmit (payload sampleForm (clone_url repo))].
Proof.
  apply (key_present_submits sampleForm keyPresent [sampleRepo] "anthropic" "Claude").
  - vm_compute. discriminate.
  - vm_compute. discriminate.
  - vm_compute. discriminate.
  - vm_compute. reflexivity.
  - exists sampleRepo. split; [apply list_elem_of_here | reflexivity].
  - reflexivity.
Defined.

Lemma started_submit_is_answered_witness :
  (length (toasts (run missingKey (handleSubmit sampleForm))) +
   length (submissions (run missingKey (handleSubmit sampleForm))) = 1)%nat.
Proof.
  apply (started_submit_is_answered (Some 1280%Z) true false enterKey sampleForm missingKey).
  left. vm_compute. reflexivity.
Defined.

Lemma agent_choice_survives_reload_witness :
  let s' := mount sampleProps (atomsOf (step (SelectAgent "opencode") sampleForm)) noUrl in
  selectedAgent s' = "opencode" /\
  selectedModel s' = spec_persistedOrDefault "opencode" (savedModels sampleForm !! "opencode").
Proof.
  apply (agent_choice_survives_reload sampleForm "opencode" sampleProps noUrl).
  - vm_compute. reflexivity.
  - reflexivity.
Defined.

Lemma persisted_agent_is_selected_witness :
  savedAgent (runEvents [SelectAgent "codex"; TypePrompt "Add tests"; UpdateKeepAlive true] sampleForm) =
  Some (selectedAgent
          (runEvents [SelectAgent "codex"; TypePrompt "Add tests"; UpdateKeepAlive true] sampleForm)).
Proof.
  apply (persisted_agent_is_selected
           [SelectAgent "codex"; TypePrompt "Add tests"; UpdateKeepAlive true] sampleForm).
  exists "codex". apply list_elem_of_here.
Defined.

Lemma model_is_remembered_per_agent_witness :
  let s' := runEvents [SelectModel "claude-sonnet-4-5-20250929"; SelectAgent "codex";
                       SelectAgent (selectedAgent mountedForm)] mountedForm in
  selectedAgent s' = selectedAgent mountedForm /\
  selectedModel s' = "claude-sonnet-4-5-20250929" /\
  savedModels s' !! selectedAgent mountedForm = Some "claude-sonnet-4-5-20250929".
Proof.
  apply (model_is_remembered_per_agent mountedForm "claude-sonnet-4-5-20250929" "codex").
  - apply reach_mount.
  - vm_compute. reflexivity.
  - vm_compute. reflexivity.
Defined.

Lemma selection_is_catalog_default_witness :
  isAgent (selectedAgent mountedForm) = true /\
  DEFAULT_MODELS !! selectedAgent mountedForm = Some (selectedModel mountedForm) /\
  keyCheckUrl mountedForm ∈
    [ "/api/api-keys/check?agent=codex&model=gpt-5.1-codex";
      "/api/api-keys/check?agent=claude&model=claude-sonnet-4-5-20250929";
      "/api/api-keys/check?agent=opencode&model=gemini-3-pro-preview" ].
Proof.
  apply (selection_is_catalog_default mountedForm). apply reach_mount.
Defined.

Lemma repository_failures_witness :
  let acts := run refusing (repoEffect coldForm) in
  (refusing (reposUrl (selectedOwner coldForm)) = ReposNotOk ->
     errorLogs acts = [] /\ toasts acts = [] /\
     githubRepos (commit acts coldForm) = githubRepos coldForm) /\
  (refusing (reposUrl (selectedOwner coldForm)) = ReposFetchThrows \/
   refusing (reposUrl (selectedOwner coldForm)) = ReposJsonThrows ->
     errorLogs acts = ["Error fetching repositories:"] /\ toasts acts = [] /\
     githubRepos (commit acts coldForm) = githubRepos coldForm).
Proof.
  apply (repository_failures coldForm refusing).
  - vm_compute. discriminate.
  - left. vm_compute. reflexivity.
Defined.

Lemma repository_rerun_after_answer_witness :
  let s' := commit (run listing (repoEffect coldForm)) coldForm in
  rerunRepoEffect coldForm s' = repoEffect s' /\
  requests (run refusing (repoEffect s')) =
    match [sampleRepo] with [] => [reposUrl (selectedOwner coldForm)] | _ :: _ => [] end.
Proof.
  apply (repository_rerun_after_answer coldForm listing refusing [sampleRepo]).
  - vm_compute. discriminate.
  - vm_compute. reflexivity.
  - reflexivity.
Defined.

Lemma submit_after_repositories_arrive_witness :
  let s' := commit (run listing (repoEffect coldForm)) coldForm in
  run keyPresent (handleSubmit coldForm) = [PreventDefault; OnSubmit (payload coldForm "")] /\
  requests (run keyPresent (handleSubmit s')) = [keyCheckUrl coldForm] /\
  forall d, d ∈ submissions (run keyPresent (handleSubmit s')) ->
            exists repo, repo ∈ [sampleRepo] /\ name repo = selectedRepo coldForm /\
                         d = payload coldForm (clone_url repo).
Proof.
  apply (submit_after_repositories_arrive coldForm listing keyPresent [sampleRepo]).
  - vm_compute. discriminate.
  - vm_compute. discriminate.
  - vm_compute. discriminate.
  - vm_compute. reflexivity.
  - reflexivity.
  - exists sampleRepo. split; [apply list_elem_of_here | reflexivity].
Defined.

Lemma reset_twice_witness :
  let w1 := Script.after Script.resetDatabase Script.fullWorld in
  Script.trace Script.resetDatabase w1 = Script.trace Script.resetDatabase Script.fullWorld /\
  Script.outcome Script.resetDatabase w1 = Script.outcome Script.resetDatabase Script.fullWorld /\
  Script.after Script.resetDatabase w1 = w1.
Proof.
  apply (reset_twice Script.fullWorld "postgres://localhost:5432/mojocode").
  - vm_compute. reflexivity.
  - discriminate.
  - reflexivity.
Defined.

Lemma reset_stops_at_fault_witness :
  Script.trace Script.resetDatabase Script.refusingWorld =
    [Script.Log "→ Resetting database..."; Script.Connect "postgres://localhost:5432/mojocode" 1;
     Script.Log "  Dropping all tables..."] ++
    map Script.Query (firstn 8 Script.resetStatements ++ [Script.DropTable "tasks" true true]) ++
    [Script.LogError "✗ Database reset failed:"; Script.EndClient] /\
  Script.after Script.resetDatabase Script.refusingWorld =
    foldl Script.drop Script.refusingWorld (firstn 8 Script.resetStatements) /\
  Script.outcome Script.resetDatabase Script.refusingWorld =
    match Script.closing Script.refusingWorld with
    | Some e' => Script.Threw e'
    | None => Script.Threw "must be owner of table tasks"
    end.
Proof.
  apply (reset_stops_at_fault Script.refusingWorld "postgres://localhost:5432/mojocode"
           "must be owner of table tasks" (firstn 8 Script.resetStatements)
           (skipn 9 Script.resetStatements) (Script.DropTable "tasks" true true)).
  - vm_compute. reflexivity.
  - discriminate.
  - reflexivity.
  - intros q' Hq'. cbn in Hq'.
    repeat (apply elem_of_cons in Hq' as [->|Hq']; [reflexivity|]).
    by apply elem_of_nil in Hq'.
  - reflexivity.
Defined.

Lemma migration_close_failure_witness :
  Script.trace Script.runMigrations
    (Script.Build_World (Script.env Script.fullWorld) ∅ ∅ (fun _ => None) None (Some "socket closed")) =
    [ Script.Log "→ Running database migrations...";
      Script.Connect "postgres://localhost:5432/mojocode" 1;
      Script.Migrate "./lib/db/migrations";
      Script.Log "✓ Database migrations completed successfully";
      Script.EndClient ] /\
  Script.outcome Script.runMigrations
    (Script.Build_World (Script.env Script.fullWorld) ∅ ∅ (fun _ => None) None (Some "socket closed")) =
    Script.Threw "socket closed" /\
  (Script.migrateMain
     (Script.Build_World (Script.env Script.fullWorld) ∅ ∅ (fun _ => None) None (Some "socket closed"))).1 =
    Script.trace Script.runMigrations
      (Script.Build_World (Script.env Script.fullWorld) ∅ ∅ (fun _ => None) None (Some "socket closed")) ++
    [Script.LogError "✗ Migration script failed:"; Script.Exit 1] /\
  (Script.migrateMain
     (Script.Build_World (Script.env Script.fullWorld) ∅ ∅ (fun _ => None) None (Some "socket closed"))).2 =
  Script.Build_World (Script.env Script.fullWorld) ∅ ∅ (fun _ => None) None (Some "socket closed").
Proof.
  apply (migration_close_failure
           (Script.Build_World (Script.env Script.fullWorld) ∅ ∅ (fun _ => None) None
              (Some "socket closed"))
           "postgres://localhost:5432/mojocode" "socket closed").
  - vm_compute. reflexivity.
  - discriminate.
  - reflexivity.
  - reflexivity.
Defined.
